(** * AutoRia scraper: extraction and crawl engine

    A shallow embedding of the extraction functions of
    [app/scraper/parser.py] and of the crawl loops of
    [app/scraper/scraper.py] and
    [app/scraper/enhanced_playwright_scraper.py], with the properties the
    specification states about them.

    Python [str] values are sequences of Unicode code points and are
    modelled as [list N].  The parsed document (the [BeautifulSoup]
    object) is modelled as a forest of element and text nodes; the CSS
    selectors the code passes to [select] / [select_one] are given their
    usual semantics over that forest.  The database table [cars] is a list
    of rows on which [INSERT] enforces the unique index on [url]. *)

From Stdlib Require Import NArith ZArith String Ascii List Lia Bool Permutation.
From stdpp Require Import base list gmap.
Import ListNotations.

Local Open Scope N_scope.

(** ** Python strings *)

Module PyStr.

(** A Python [str]: its code points. *)
Definition pystr := list N.

(** Literals are written in the source encoding (UTF-8) and decoded. *)
Fixpoint utf8_decode (bs : list N) : pystr :=
  match bs with
  | [] => []
  | b :: r =>
      if b <? 0x80 then b :: utf8_decode r
      else if b <? 0xE0 then
        match r with
        | c1 :: r1 => ((b - 0xC0) * 64 + (c1 - 0x80)) :: utf8_decode r1
        | _ => []
        end
      else if b <? 0xF0 then
        match r with
        | c1 :: c2 :: r2 =>
            ((b - 0xE0) * 4096 + (c1 - 0x80) * 64 + (c2 - 0x80)) :: utf8_decode r2
        | _ => []
        end
      else
        match r with
        | c1 :: c2 :: c3 :: r3 =>
            ((b - 0xF0) * 262144 + (c1 - 0x80) * 4096 + (c2 - 0x80) * 64 + (c3 - 0x80))
              :: utf8_decode r3
        | _ => []
        end
  end.

Fixpoint bytes_of (s : string) : list N :=
  match s with
  | EmptyString => []
  | String a r => N_of_ascii a :: bytes_of r
  end.

Definition u (s : string) : pystr := utf8_decode (bytes_of s).
Arguments u : simpl never.

(** [s == t] on strings. *)
Fixpoint str_eqb (s t : pystr) : bool :=
  match s, t with
  | [], [] => true
  | a :: s', b :: t' => (a =? b) && str_eqb s' t'
  | _, _ => false
  end.

(** [s.startswith(p)] *)
Fixpoint startswith (p s : pystr) : bool :=
  match p, s with
  | [], _ => true
  | a :: p', b :: s' => (a =? b) && startswith p' s'
  | _ :: _, [] => false
  end.

(** [p in s] for strings: [p] occurs as a contiguous substring. *)
Fixpoint contains (p s : pystr) : bool :=
  startswith p s ||
  match s with
  | [] => false
  | _ :: s' => contains p s'
  end.

(** [s.endswith(p)] *)
Definition endswith (p s : pystr) : bool :=
  startswith (rev p) (rev s).

(** Truthiness of a string: non-empty. *)
Definition truthy (s : pystr) : bool :=
  match s with [] => false | _ :: _ => true end.

(** [s.lstrip(chars)]: drop the leading characters that occur in [chars]. *)
Fixpoint lstrip_chars (chars s : pystr) : pystr :=
  match s with
  | [] => []
  | c :: s' => if existsb (N.eqb c) chars then lstrip_chars chars s' else s
  end.

(** The first code point of each run of ten decimal digits of the Unicode
    category Nd (Unicode 14, the table of the interpreter's [unicodedata]):
    the characters [\d] matches in a [str] pattern, and the digits [int]
    accepts. *)
Definition nd_zeros : list N :=
  [ 0x30; 0x660; 0x6f0; 0x7c0; 0x966; 0x9e6; 0xa66; 0xae6; 0xb66; 0xbe6;
    0xc66; 0xce6; 0xd66; 0xde6; 0xe50; 0xed0; 0xf20; 0x1040; 0x1090;
    0x17e0; 0x1810; 0x1946; 0x19d0; 0x1a80; 0x1a90; 0x1b50; 0x1bb0;
    0x1c40; 0x1c50; 0xa620; 0xa8d0; 0xa900; 0xa9d0; 0xa9f0; 0xaa50;
    0xabf0; 0xff10; 0x104a0; 0x10d30; 0x11066; 0x110f0; 0x11136; 0x111d0;
    0x112f0; 0x11450; 0x114d0; 0x11650; 0x116c0; 0x11730; 0x118e0;
    0x11950; 0x11c50; 0x11d50; 0x11da0; 0x16a60; 0x16ac0; 0x16b50;
    0x1d7ce; 0x1d7d8; 0x1d7e2; 0x1d7ec; 0x1d7f6; 0x1e140; 0x1e2f0;
    0x1e950; 0x1fbf0 ].

(** The decimal value of a digit character, [None] for any other one. *)
Definition digit_value (c : N) : option N :=
  match List.find (fun z => (z <=? c) && (c <? z + 10)) nd_zeros with
  | Some z => Some (c - z)
  | None => None
  end.

(** [\d] *)
Definition is_digit (c : N) : bool :=
  match digit_value c with Some _ => true | None => false end.

(** [\s], and the characters [str.strip()] removes: [str.isspace]. *)
Definition is_space (c : N) : bool :=
  ((0x9 <=? c) && (c <=? 0xd)) || ((0x1c <=? c) && (c <=? 0x20))
  || (c =? 0x85) || (c =? 0xa0) || (c =? 0x1680)
  || ((0x2000 <=? c) && (c <=? 0x200a))
  || (c =? 0x2028) || (c =? 0x2029) || (c =? 0x202f) || (c =? 0x205f)
  || (c =? 0x3000).

Fixpoint lstrip (s : pystr) : pystr :=
  match s with
  | [] => []
  | c :: s' => if is_space c then lstrip s' else s
  end.

Definition rstrip (s : pystr) : pystr := rev (lstrip (rev s)).

(** [s.strip()] *)
Definition strip (s : pystr) : pystr := rstrip (lstrip s).

(** [int(s)] on a string of decimal digits; [None] is [ValueError].  (Only
    digit strings reach [int] in the modelled code, so signs, underscores
    and surrounding blanks are left out.) *)
Fixpoint int_digits (acc : N) (s : pystr) : option N :=
  match s with
  | [] => Some acc
  | c :: s' =>
      match digit_value c with
      | Some d => int_digits (acc * 10 + d) s'
      | None => None
      end
  end.

Definition int_of (s : pystr) : option N :=
  match s with
  | [] => None
  | _ :: _ => int_digits 0 s
  end.

(** [re.sub(r'[^\d]', '', s)] *)
Definition digits_only (s : pystr) : pystr := List.filter is_digit s.

End PyStr.
Import PyStr.

(** ** Phone numbers ([parser.py], [format_phone_number]) *)

Definition plus_sign : N := 0x2B.

Definition digit_or_plus (c : N) : bool := is_digit c || (c =? plus_sign).

(** [re.sub(r'[^\d+]', '', phone_text)] *)
Definition strip_non_phone (phone_text : pystr) : pystr :=
  List.filter digit_or_plus phone_text.

Definition format_phone_number (phone_text : pystr) : pystr :=
  let phone_text := strip_non_phone phone_text in
  let phone_text :=
    if truthy phone_text && negb (startswith (u "+") phone_text)
    then u "+" ++ phone_text else phone_text in
  let phone_text :=
    if truthy phone_text && negb (startswith (u "+38") phone_text)
    then u "+38" ++ lstrip_chars (u "+") phone_text else phone_text in
  phone_text.


(** ** Regular expressions

    The patterns of the code are built from character classes, literals,
    alternation, optional parts, greedy repetition of a character class
    and capturing groups.  [rmatch] is the backtracking matcher of [re]:
    alternatives are tried left to right and a greedy repetition gives
    characters back one at a time. *)

Module Re.

Inductive regex : Type :=
| Eps
| Chr (p : N -> bool)
| Seq (r1 r2 : regex)
| Alt (r1 r2 : regex)
| Opt (r : regex)
| Many (p : N -> bool)
| Times (n : nat) (p : N -> bool)
| Grp (r : regex).

(** The state handed to the continuation: the input that is left and the
    groups closed so far. *)
Definition cont := pystr -> list pystr -> option (list pystr * pystr).

Fixpoint rmatch (r : regex) (s : pystr) (g : list pystr) (k : cont)
  : option (list pystr * pystr) :=
  match r with
  | Eps => k s g
  | Chr p =>
      match s with
      | c :: s' => if p c then k s' g else None
      | [] => None
      end
  | Seq a b => rmatch a s g (fun s' g' => rmatch b s' g' k)
  | Alt a b =>
      match rmatch a s g k with
      | Some x => Some x
      | None => rmatch b s g k
      end
  | Opt a =>
      match rmatch a s g k with
      | Some x => Some x
      | None => k s g
      end
  | Many p =>
      (fix many (s : pystr) :=
         match s with
         | c :: s' =>
             if p c then
               match many s' with
               | Some x => Some x
               | None => k s g
               end
             else k s g
         | [] => k s g
         end) s
  | Times n p =>
      (fix times (n : nat) (s : pystr) :=
         match n with
         | O => k s g
         | S n' =>
             match s with
             | c :: s' => if p c then times n' s' else None
             | [] => None
             end
         end) n s
  | Grp a =>
      rmatch a s g
        (fun s' g' => k s' (g' ++ [firstn (length s - length s')%nat s]))
  end.

(** [p+] *)
Definition Many1 (p : N -> bool) : regex := Seq (Chr p) (Many p).

(** A literal string. *)
Fixpoint lit (s : pystr) : regex :=
  match s with
  | [] => Eps
  | c :: s' => Seq (Chr (N.eqb c)) (lit s')
  end.

(** The characters that match a cased letter of a pattern compiled with
    [re.IGNORECASE]: those whose lower case is the letter, and the
    letter's other case variants of the [re] module.  The table lists the
    letters of the patterns below. *)
Definition ignorecase_table : list (N * list N) :=
  [ (0x442, [0x422; 0x442; 0x1c84; 0x1c85]);   (* т *)
    (0x438, [0x418; 0x438]);                   (* и *)
    (0x441, [0x421; 0x441; 0x1c83]);           (* с *)
    (0x44b, [0x42b; 0x44b]);                   (* ы *)
    (0x43a, [0x41a; 0x43a]);                   (* к *)
    (0x43c, [0x41c; 0x43c]) ].                 (* м *)

Definition chr_ci (c : N) : N -> bool :=
  fun x =>
    match List.find (fun e => fst e =? c) ignorecase_table with
    | Some e => existsb (N.eqb x) (snd e)
    | None => x =? c
    end.

Fixpoint lit_ci (s : pystr) : regex :=
  match s with
  | [] => Eps
  | c :: s' => Seq (Chr (chr_ci c)) (lit_ci s')
  end.

(** A match anchored at the start of [s]: the groups and what is left. *)
Definition match_here (r : regex) (s : pystr) : option (list pystr * pystr) :=
  rmatch r s [] (fun s' g => Some (g, s')).

(** [re.search(r, s)]: the leftmost match; group 0 first, then the groups. *)
Fixpoint search (r : regex) (s : pystr) : option (list pystr) :=
  match match_here r s with
  | Some (g, rest) => Some (firstn (length s - length rest)%nat s :: g)
  | None =>
      match s with
      | [] => None
      | _ :: s' => search r s'
      end
  end.

(** [re.findall(r, s)] for a pattern with one group: group 1 of the
    successive non-overlapping matches.  [skip] counts the characters of
    the last match that are still to be passed over. *)
Fixpoint findall_from (r : regex) (s : pystr) (skip : nat) : list pystr :=
  match skip with
  | S skip' =>
      match s with
      | [] => []
      | _ :: s' => findall_from r s' skip'
      end
  | O =>
      match match_here r s with
      | Some (g, rest) =>
          nth 0 g [] ::
          match s with
          | [] => []
          | _ :: s' => findall_from r s' (length s - length rest - 1)%nat
          end
      | None =>
          match s with
          | [] => []
          | _ :: s' => findall_from r s' 0%nat
          end
      end
  end.

Definition findall (r : regex) (s : pystr) : list pystr := findall_from r s 0%nat.

End Re.
Import Re.

(** ** The parsed document *)

Module Dom.

(** A tag without its contents: its name, the tokens of its [class]
    attribute (kept as a list, as [bs4] does) and its other attributes. *)
Record tag_head : Type := mk_head {
  name : pystr;
  classes : list pystr;
  attrs : list (pystr * pystr)
}.

#[warning="-register-all"]
Inductive node : Type :=
| Text (s : pystr)
| Tag (h : tag_head) (contents : list node).

(** The contents of the [BeautifulSoup] object. *)
Definition soup := list node.

(** An element together with the chain of its ancestors, the parent
    first; each ancestor with its contents. *)
Record element : Type := mk_element {
  el_ancestors : list (tag_head * list node);
  el_head : tag_head;
  el_contents : list node
}.

(** [tag.get(key)] *)
Fixpoint assoc (key : pystr) (l : list (pystr * pystr)) : option pystr :=
  match l with
  | [] => None
  | (k, v) :: l' => if str_eqb k key then Some v else assoc key l'
  end.

Definition get (h : tag_head) (key : pystr) : option pystr := assoc key (attrs h).

(** The elements of a subtree in document order, the root first. *)
Fixpoint elements_of (anc : list (tag_head * list node)) (n : node) : list element :=
  match n with
  | Text _ => []
  | Tag h cs =>
      mk_element anc h cs :: List.flat_map (elements_of ((h, cs) :: anc)) cs
  end.

Definition elements_in (anc : list (tag_head * list node)) (cs : list node)
  : list element :=
  List.flat_map (elements_of anc) cs.

(** All elements of the document. *)
Definition soup_elements (s : soup) : list element := elements_in [] s.

(** The descendants of an element. *)
Definition descendants (e : element) : list element :=
  elements_in ((el_head e, el_contents e) :: el_ancestors e) (el_contents e).

(** [tag.text]: the text nodes below, concatenated. *)
Fixpoint node_text (n : node) : pystr :=
  match n with
  | Text s => s
  | Tag _ cs => List.flat_map node_text cs
  end.

Definition contents_text (cs : list node) : pystr := List.flat_map node_text cs.

Definition text (e : element) : pystr := contents_text (el_contents e).

(** [tag.parent.contents]; the parent of a top-level element is the
    document. *)
Definition parent_contents (doc : soup) (e : element) : list node :=
  match el_ancestors e with
  | (_, cs) :: _ => cs
  | [] => doc
  end.

(** [tag.parent.text] *)
Definition parent_text (doc : soup) (e : element) : pystr :=
  contents_text (parent_contents doc e).

(** *** CSS selectors *)

Inductive attr_test : Type :=
| AttrHas (key : pystr)                  (* [key] *)
| AttrIs (key value : pystr)             (* [key='value'] *)
| AttrContains (key value : pystr)       (* [key*='value'] *)
| AttrEnds (key value : pystr).          (* [key$='value'] *)

(** A compound selector: an optional type selector, class selectors and
    attribute selectors. *)
Record compound : Type := mk_compound {
  c_name : option pystr;
  c_classes : list pystr;
  c_attrs : list attr_test
}.

(** A complex selector [A B ... S] with descendant combinators, written
    subject first: [S; ...; B; A]. *)
Definition complex := list compound.

(** A selector list [X, Y, ...]. *)
Definition selector := list complex.

Definition attr_holds (h : tag_head) (t : attr_test) : bool :=
  match t with
  | AttrHas k => match get h k with Some _ => true | None => false end
  | AttrIs k v =>
      match get h k with Some x => str_eqb x v | None => false end
  | AttrContains k v =>
      match get h k with Some x => contains v x | None => false end
  | AttrEnds k v =>
      match get h k with Some x => endswith v x | None => false end
  end.

Definition compound_matches (c : compound) (h : tag_head) : bool :=
  match c_name c with Some t => str_eqb t (name h) | None => true end
  && forallb (fun k => existsb (str_eqb k) (classes h)) (c_classes c)
  && forallb (attr_holds h) (c_attrs c).

(** Some chain of ancestors, nearest first, matches the compounds. *)
Fixpoint ancestors_match (cs : list compound) (anc : list (tag_head * list node))
  : bool :=
  match cs with
  | [] => true
  | c :: cs' =>
      (fix up (anc : list (tag_head * list node)) : bool :=
         match anc with
         | [] => false
         | a :: anc' =>
             (compound_matches c (fst a) && ancestors_match cs' anc') || up anc'
         end) anc
  end.

Definition complex_matches (x : complex) (e : element) : bool :=
  match x with
  | [] => false
  | subject :: above =>
      compound_matches subject (el_head e) && ancestors_match above (el_ancestors e)
  end.

Definition selector_matches (sel : selector) (e : element) : bool :=
  existsb (fun x => complex_matches x e) sel.

(** [soup.select(sel)] and [tag.select(sel)]: the matching elements below,
    in document order. *)
Definition soup_select (sel : selector) (doc : soup) : list element :=
  List.filter (selector_matches sel) (soup_elements doc).

Definition select (sel : selector) (e : element) : list element :=
  List.filter (selector_matches sel) (descendants e).

(** [select_one]: the first match, or [None]. *)
Definition soup_select_one (sel : selector) (doc : soup) : option element :=
  List.find (selector_matches sel) (soup_elements doc).

Definition select_one (sel : selector) (e : element) : option element :=
  List.find (selector_matches sel) (descendants e).

(** Builders for the selectors of the code. *)
Definition any_tag : compound := mk_compound None [] [].
Definition tag (t : string) : compound := mk_compound (Some (u t)) [] [].
Definition cls (k : string) (c : compound) : compound :=
  mk_compound (c_name c) (c_classes c ++ [u k]) (c_attrs c).
Definition has_attr (k : string) (c : compound) : compound :=
  mk_compound (c_name c) (c_classes c) (c_attrs c ++ [AttrHas (u k)]).
Definition attr_is (k v : string) (c : compound) : compound :=
  mk_compound (c_name c) (c_classes c) (c_attrs c ++ [AttrIs (u k) (u v)]).
Definition attr_sub (k v : string) (c : compound) : compound :=
  mk_compound (c_name c) (c_classes c) (c_attrs c ++ [AttrContains (u k) (u v)]).
Definition attr_end (k v : string) (c : compound) : compound :=
  mk_compound (c_name c) (c_classes c) (c_attrs c ++ [AttrEnds (u k) (u v)]).

(** [tag.decompose()] applied to the first element below that satisfies
    [p]: the contents without it, or [None] when there is none. *)
Fixpoint remove_first (p : tag_head -> bool) (n : node) : option node :=
  match n with
  | Text _ => None
  | Tag h cs =>
      option_map (Tag h)
        ((fix go (cs : list node) : option (list node) :=
            match cs with
            | [] => None
            | c :: cs' =>
                match c with
                | Text _ => option_map (cons c) (go cs')
                | Tag h' _ =>
                    if p h' then Some cs'
                    else
                      match remove_first p c with
                      | Some c' => Some (c' :: cs')
                      | None => option_map (cons c) (go cs')
                      end
                end
            end) cs)
  end.

(** The element after [find]/[select_one] of a simple selector and
    [decompose] of the result, when there is one. *)
Definition decompose_first (p : tag_head -> bool) (e : element) : element :=
  match remove_first p (Tag (el_head e) (el_contents e)) with
  | Some (Tag h cs) => mk_element (el_ancestors e) h cs
  | _ => e
  end.

End Dom.
Import Dom.

(** ** Library functions the code calls

    [BeautifulSoup(html, "lxml")] and [urllib.parse.urljoin] are not part
    of the repository; the functions below take them as given. *)

Record lib : Type := mk_lib {
  BeautifulSoup : pystr -> soup;
  urljoin : pystr -> pystr -> pystr
}.

(** [c.lower()] wherever it yields a letter of the words looked for in
    lowered text below ([captcha], [robot], [detection], [тис]); no other
    character has such a letter in its lower case, so it is kept. *)
Definition lower_char (c : N) : pystr :=
  if (0x41 <=? c) && (c <=? 0x5A) then [c + 32]
  else if c =? 0x130 then [0x69; 0x307]
  else if c =? 0x212A then [0x6B]
  else if (0x410 <=? c) && (c <=? 0x42F) then [c + 32]
  else [c].

(** [s.lower()] *)
Definition lower (s : pystr) : pystr := List.flat_map lower_char s.

(** ** Listing pages ([parser.py], [parse_car_listing_page]) *)

Definition site_origin : pystr := u "https://auto.ria.com".

Definition selectors_to_try : list selector :=
  [ [[cls "ticket-item" (tag "section")]];                       (* section.ticket-item *)
    [[cls "ticket-item" (tag "div")]];                           (* div.ticket-item *)
    [[cls "content-ticket" (tag "div")]];                        (* div.content-ticket *)
    [[cls "content-bar" (tag "div")]];                           (* div.content-bar *)
    [[cls "ticket-item" any_tag; cls "search-result" any_tag]];  (* .search-result .ticket-item *)
    [[cls "app-catalog-item" any_tag; cls "app-catalog" (tag "div")]];
                                                   (* div.app-catalog .app-catalog-item *)
    [[cls "content-bar" any_tag]];                               (* .content-bar *)
    [[attr_sub "href" "auto_" (tag "a"); cls "app-catalog" any_tag]] ].
                                                   (* .app-catalog a[href*='auto_'] *)

Definition opt_truthy (o : option pystr) : bool :=
  match o with Some s => truthy s | None => false end.

Definition opt_contains (p : pystr) (o : option pystr) : bool :=
  match o with Some s => contains p s | None => false end.

(** The URL of one matched element: the body of the [try] block up to
    "Process URL if found". *)
Definition find_car_url (element : element) : option pystr :=
  let href := get (el_head element) (u "href") in
  if str_eqb (name (el_head element)) (u "a") && opt_truthy href
     && opt_contains (u "auto_") href
  then href
  else
    match select_one [[attr_sub "href" "auto_" (tag "a")]] element with
    | Some link_element => get (el_head link_element) (u "href")
    | None =>
        match select_one [[has_attr "data-link-to-view" any_tag]] element with
        | Some data_link => get (el_head data_link) (u "data-link-to-view")
        | None =>
            match select_one [[cls "address" (tag "a")]] element with
            | Some address_link => get (el_head address_link) (u "href")
            | None =>
                match select_one [[tag "a"; cls "ticket-photo" any_tag]] element with
                | Some photo_link => get (el_head photo_link) (u "href")
                | None => None
                end
            end
        end
    end.

(** Relative URLs are resolved against the site origin. *)
Definition absolute_url (L : lib) (car_url : pystr) : pystr :=
  if startswith (u "http") car_url then car_url
  else urljoin L site_origin car_url.

(** [if link not in car_links: car_links.append(link)] *)
Definition append_new (car_links : list pystr) (link : pystr) : list pystr :=
  if existsb (str_eqb link) car_links then car_links else car_links ++ [link].

(** "Process URL if found" *)
Definition add_car_url (L : lib) (car_links : list pystr) (car_url : option pystr)
  : list pystr :=
  match car_url with
  | Some car_url =>
      if truthy car_url then append_new car_links (absolute_url L car_url)
      else car_links
  | None => car_links
  end.

(** The loop over the selectors: every selector is evaluated and every
    element it matches is processed. *)
Definition scan_selectors (L : lib) (selectors : list selector) (doc : soup)
  : list pystr :=
  fold_left
    (fun car_links selector =>
       fold_left
         (fun car_links element => add_car_url L car_links (find_car_url element))
         (soup_select selector doc) car_links)
    selectors [].

Definition quote_char (c : N) : bool := (c =? 0x22) || (c =? 0x27).

(** The pattern of the scan: [href], [link] or [url], an equals sign, an
    optional quote, and the group: one or more characters other than
    quotes, blanks and [>], then [auto_], one or more characters other
    than quotes, then [.html]. *)
Definition re_auto_link : regex :=
  Seq (Alt (lit (u "href")) (Alt (lit (u "link")) (lit (u "url"))))
   (Seq (lit (u "="))
    (Seq (Opt (Chr quote_char))
     (Grp
        (Seq (Many1 (fun c => negb (quote_char c || is_space c || (c =? 0x3E))))
         (Seq (lit (u "auto_"))
          (Seq (Many1 (fun c => negb (quote_char c)))
               (lit (u ".html")))))))).

(** "Approach 2": the pattern scan over the raw text, when no link was
    found through the selectors. *)
Definition scan_pattern (L : lib) (html : pystr) (car_links : list pystr)
  : list pystr :=
  match car_links with
  | _ :: _ => car_links
  | [] =>
      fold_left (fun car_links link => append_new car_links (absolute_url L link))
        (findall re_auto_link html) car_links
  end.

(** [list(set(car_links))]: the distinct links in an order that is not
    specified. *)
Definition list_of_set (car_links : list pystr) : list pystr :=
  elements (list_to_set car_links : gset pystr).

Definition parse_car_listing_page (L : lib) (html : pystr) : list pystr :=
  let soup := BeautifulSoup L html in
  let car_links := scan_selectors L selectors_to_try soup in
  let car_links := scan_pattern L html car_links in
  list_of_set car_links.

(** *** The listing parser of [enhanced_playwright_scraper.py]

    The same loop with two more selectors, behind two guards: an empty
    text and a text with an anti-bot marker give no links. *)

Definition selectors_to_try_enhanced : list selector :=
  selectors_to_try ++
  [ [[attr_sub "href" "auto_" (cls "address" (tag "a"))]];   (* a.address[href*='auto_'] *)
    [[attr_end "href" ".html" (attr_sub "href" "auto_" (tag "a"))]] ].
                                               (* a[href*='auto_'][href$='.html'] *)

Definition anti_bot_marker (html : pystr) : bool :=
  contains (u "captcha") (lower html) || contains (u "robot") (lower html)
  || contains (u "detection") (lower html).

Definition parse_car_listing_page_enhanced (L : lib) (html : pystr) : list pystr :=
  if negb (truthy html) then []
  else
    let soup := BeautifulSoup L html in
    if anti_bot_marker html then []
    else
      let car_links := scan_selectors L selectors_to_try_enhanced soup in
      let car_links := scan_pattern L html car_links in
      list_of_set car_links.

(** ** Odometer ([parser.py], [extract_odometer]) *)

(** [(\d+)\s*(?:тис|тыс)\.?\s*км] with [re.IGNORECASE] *)
Definition re_thousand_km : regex :=
  Seq (Grp (Many1 is_digit))
   (Seq (Many is_space)
    (Seq (Alt (lit_ci (u "тис")) (lit_ci (u "тыс")))
     (Seq (Opt (Chr (N.eqb 0x2E)))
      (Seq (Many is_space) (lit_ci (u "км")))))).

(** The result of a function body that runs inside [try]: a returned
    value, or an exception, which the [except] clause logs. *)
Inductive attempt (A : Type) : Type :=
| Returned (a : A)
| Raised.
Arguments Returned {A} a.
Arguments Raised {A}.

(** [int(match.group(1)) * 1000] for a match of the pattern in [text];
    [None] when the pattern does not match. *)
Definition thousands_in (text : pystr) : option (attempt N) :=
  match search re_thousand_km text with
  | Some g =>
      Some match int_of (nth 1 g []) with
           | Some n => Returned (n * 1000)
           | None => Raised
           end
  | None => None
  end.

(** The strings of the document in document order. *)
Fixpoint node_strings (n : node) : list pystr :=
  match n with
  | Text s => [s]
  | Tag _ cs => List.flat_map node_strings cs
  end.

Definition soup_strings (doc : soup) : list pystr := List.flat_map node_strings doc.

(** [li.item-char.js-race] and [.base-information .size18] *)
Definition listing_odometer_selector : selector :=
  [[cls "js-race" (cls "item-char" (tag "li"))]].

Definition detail_odometer_selector : selector :=
  [[cls "size18" any_tag; cls "base-information" any_tag]].

(** "First try from listing page format": the value read from the listing
    element, [None] when there is no such element or its text does not
    match the pattern. *)
Definition listing_odometer (car_soup : soup) : option (attempt N) :=
  match soup_select_one listing_odometer_selector car_soup with
  | Some odometer_element => thousands_in (strip (text odometer_element))
  | None => None
  end.

(** The body of the [try] block of [extract_odometer]. *)
Definition extract_odometer_body (car_soup : soup) : attempt (option N) :=
  match listing_odometer car_soup with
  | Some (Returned n) => Returned (Some n)
  | Some Raised => Raised
  | None =>
      match soup_select_one detail_odometer_selector car_soup with
      | Some odometer_element =>
          let odometer_text := strip (text odometer_element) in
          let odometer_container := strip (parent_text car_soup odometer_element) in
          match int_of (digits_only odometer_text) with
          | Some odometer_value =>
              if contains (u "тис") (lower odometer_container)
              then Returned (Some (odometer_value * 1000))
              else Returned (Some odometer_value)
          | None => Raised
          end
      | None =>
          (* find_all(string=pattern), then the first string that matches *)
          match List.find (fun s => match search re_thousand_km s with
                                    | Some _ => true | None => false end)
                  (soup_strings car_soup) with
          | Some text =>
              match thousands_in text with
              | Some (Returned n) => Returned (Some n)
              | Some Raised => Raised
              | None => Returned None
              end
          | None => Returned None
          end
      end
  end.

Definition extract_odometer (car_soup : soup) : option N :=
  match extract_odometer_body car_soup with
  | Returned r => r
  | Raised => None
  end.

(** The odometer field of [parse_car_detail_page]: content with a listing
    item container is read with the listing pattern only. *)
Definition is_listing_page (doc : soup) : bool :=
  match soup_select_one
          [[cls "ticket-item" any_tag]; [cls "content-bar" any_tag];
           [cls "content-ticket" any_tag]] doc with
  | Some _ => true
  | None => false
  end.

Definition detail_page_odometer (doc : soup) : option N :=
  if is_listing_page doc then
    match soup_select_one
            [[cls "js-race" (cls "item-char" (tag "li"))];
             [cls "characteristic-oil" any_tag]] doc with
    | Some odometer_element =>
        match thousands_in (strip (text odometer_element)) with
        | Some (Returned n) => Some n
        | _ => None
        end
    | None => None
    end
  else extract_odometer doc.

(** ** VIN ([parser.py], [extract_car_vin]) *)

(** A character of the class [[A-HJ-NPR-Z0-9]] under [re.IGNORECASE]: the
    letters in either case and the two characters whose lower case is one
    of them (the long s and the Kelvin sign). *)
Definition vin_char (c : N) : bool :=
  let up := if (0x61 <=? c) && (c <=? 0x7A) then c - 32 else c in
  ((0x30 <=? c) && (c <=? 0x39))
  || ((0x41 <=? up) && (up <=? 0x48))
  || ((0x4A <=? up) && (up <=? 0x4E))
  || (up =? 0x50)
  || ((0x52 <=? up) && (up <=? 0x5A))
  || (c =? 0x17F) || (c =? 0x212A).

(** [[A-HJ-NPR-Z0-9]{17}] *)
Definition re_vin : regex := Times 17 vin_char.

Definition is_svg (h : tag_head) : bool := str_eqb (name h) (u "svg").

Definition is_popup (h : tag_head) : bool :=
  compound_matches (cls "popup" any_tag) h.

Definition extract_car_vin (car_soup : soup) : option pystr :=
  match soup_select_one [[cls "label-vin" any_tag]] car_soup with
  | Some vin_element =>
      let vin_element := decompose_first is_svg vin_element in
      let vin_element := decompose_first is_popup vin_element in
      let vin_text := strip (text vin_element) in
      match search re_vin vin_text with
      | Some vin_match => Some (nth 0 vin_match [])
      | None => Some vin_text
      end
  | None => None
  end.

(** ** Next page ([parser.py], [get_next_page_url]) *)

Definition next_page_selectors : list selector :=
  [ [[has_attr "href" (tag "a"); cls "next" any_tag; cls "pagination" any_tag]];
                                                   (* .pagination .next a[href] *)
    [[has_attr "href" (cls "next" (tag "a")); cls "pager" any_tag]];
                                                   (* .pager a.next[href] *)
    [[has_attr "href" (cls "arrow-right" (tag "a")); cls "pagination" any_tag]];
                                                   (* .pagination a.arrow-right[href] *)
    [[has_attr "href" (attr_is "rel" "next" (cls "page-link" (tag "a")));
      cls "search-result-pager" any_tag]];
                              (* .search-result-pager a.page-link[rel='next'][href] *)
    [[has_attr "href" (cls "js-next" (tag "a")); cls "pager" any_tag]];
                                                   (* .pager a.js-next[href] *)
    [[has_attr "href" (attr_is "rel" "next" (tag "a"))]] ].
                                                   (* a[rel='next'][href] *)

Fixpoint first_next_link (L : lib) (doc : soup) (current_url : pystr)
    (selectors : list selector) : option pystr :=
  match selectors with
  | [] => None
  | selector :: rest =>
      match soup_select_one selector doc with
      | Some next_link =>
          match get (el_head next_link) (u "href") with
          | Some next_page_url =>
              if truthy next_page_url then
                Some (if startswith (u "http") next_page_url then next_page_url
                      else urljoin L current_url next_page_url)
              else first_next_link L doc current_url rest
          | None => first_next_link L doc current_url rest
          end
      | None => first_next_link L doc current_url rest
      end
  end.

Definition get_next_page_url (L : lib) (html current_url : pystr) : option pystr :=
  first_next_link L (BeautifulSoup L html) current_url next_page_selectors.

(** ** The table [cars] ([db/models.py]) and the session *)

(** The columns of a row besides the key [url]; [id] and [datetime_found]
    are filled in by the database.  The price is the number read from the
    digits of the price text. *)
Record car_fields : Type := mk_fields {
  title : pystr;
  price_usd : option N;
  odometer : option N;
  username : option pystr;
  phone_number : option pystr;
  image_url : option pystr;
  images_count : N;
  car_number : option pystr;
  car_vin : option pystr
}.

(** The dictionary [parse_car_detail_page] returns: the ten columns and,
    when a location was found, the key [location]. *)
Record car_data : Type := mk_car_data {
  cd_url : pystr;
  cd_fields : car_fields;
  cd_location : option pystr
}.

(** A row of [cars]. *)
Record Car : Type := mk_Car {
  url : pystr;
  fields : car_fields
}.

(** The constructor call of [Car] with the keys of the dictionary as
    keyword arguments: a key that is no column raises [TypeError]. *)
Definition new_Car (d : car_data) : attempt Car :=
  match cd_location d with
  | Some _ => Raised
  | None => Returned (mk_Car (cd_url d) (cd_fields d))
  end.

(** The state behind the session: the rows of the table, and the URLs
    for which an [INSERT] was issued, in order. *)
Record session : Type := mk_session {
  rows : list Car;
  inserts : list pystr
}.

Definition empty_session : session := mk_session [] [].

(** [select(Car).where(Car.url == u)] ... [scalar_one_or_none()] *)
Definition select_car (u : pystr) (s : session) : option Car :=
  List.find (fun c => str_eqb (url c) u) (rows s).

(** [session.add(car); await session.commit()]: the unique index on [url]
    rejects a second row with the same URL ([IntegrityError]); the flag
    tells whether the row was written. *)
Definition add_commit (car : Car) (s : session) : session * bool :=
  match select_car (url car) s with
  | Some _ => (mk_session (rows s) (inserts s ++ [url car]), false)
  | None => (mk_session (rows s ++ [car]) (inserts s ++ [url car]), true)
  end.

(** ** Saving ([scraper.py], [save_car_data]) *)

Definition save_car_data (d : car_data) (s : session) : session :=
  match select_car (cd_url d) s with
  | Some existing_car => s
  | None =>
      match new_Car d with
      | Returned car => fst (add_commit car s)
      | Raised => s
      end
  end.

(** ** The field extractors

    The title, price, image, seller and location lookups of
    [parse_car_detail_page] are functions of the content alone; they are
    taken as given, and so is the text [str(item)] of an element. *)
Record extractor : Type := mk_extractor {
  page_fields : pystr -> car_fields;
  page_location : pystr -> option pystr;
  outer_html : element -> pystr
}.

Definition parse_car_detail_page (X : extractor) (html url : pystr) : car_data :=
  mk_car_data url (page_fields X html)
    (if opt_truthy (page_location X html) then page_location X html else None).

(** ** Mock data ([enhanced_playwright_scraper.py], [process_mock_data])

    The listing and detail files are read by the caller; the function
    below starts from their texts, with a session, and with the clock
    reading [int(time.time())] of the run. *)

Fixpoint uint_digits (d : Decimal.uint) : pystr :=
  match d with
  | Decimal.Nil => []
  | Decimal.D0 r => 0x30 :: uint_digits r
  | Decimal.D1 r => 0x31 :: uint_digits r
  | Decimal.D2 r => 0x32 :: uint_digits r
  | Decimal.D3 r => 0x33 :: uint_digits r
  | Decimal.D4 r => 0x34 :: uint_digits r
  | Decimal.D5 r => 0x35 :: uint_digits r
  | Decimal.D6 r => 0x36 :: uint_digits r
  | Decimal.D7 r => 0x37 :: uint_digits r
  | Decimal.D8 r => 0x38 :: uint_digits r
  | Decimal.D9 r => 0x39 :: uint_digits r
  end.

(** [str(n)] *)
Definition decimal (n : N) : pystr := uint_digits (N.to_uint n).

(** [n] formatted with the format [0wd] *)
Definition zero_padded (w : nat) (n : N) : pystr :=
  repeat 0x30 (w - length (decimal n))%nat ++ decimal n.

Definition detail_url : pystr := u "https://auto.ria.com/uk/auto_mock_detail_123.html".

(** [if not d.get(key): d[key] = default] *)
Definition or_default (o : option pystr) (default : pystr) : option pystr :=
  if opt_truthy o then o else Some default.

Definition with_mock_fields (f : car_fields) (number vin user phone : pystr)
  : car_fields :=
  mk_fields (title f) (price_usd f) (odometer f) (or_default (username f) user)
    (or_default (phone_number f) phone) (image_url f) (images_count f)
    (or_default (car_number f) number) (or_default (car_vin f) vin).

(** The detail record, as appended to [extracted_cars]. *)
Definition mock_detail_car (X : extractor) (detail_html : pystr) : car_data :=
  let d := parse_car_detail_page X detail_html detail_url in
  mk_car_data (cd_url d)
    (with_mock_fields (cd_fields d) (u "AA0000AA") (u "WBAAA1111AAA00000")
       (u "Автосалон Тест") (u "+380987654321"))
    (cd_location d).

Definition mock_item_selector : selector :=
  [[cls "ticket-item" any_tag]; [cls "content-bar" any_tag];
   [cls "content-ticket" any_tag]].

(** The link of a listing item, when it has one. *)
Definition item_link (item : element) : option pystr :=
  match select_one [[attr_sub "href" "auto_" (tag "a")]] item with
  | Some url_element =>
      match get (el_head url_element) (u "href") with
      | Some car_url => if truthy car_url then Some car_url else None
      | None => None
      end
  | None => None
  end.

Definition mock_item_url (L : lib) (timestamp idx : N) (item : element) : pystr :=
  match item_link item with
  | Some car_url => absolute_url L car_url
  | None =>
      u "https://auto.ria.com/uk/auto_mock_" ++ decimal timestamp ++ u "_"
        ++ decimal idx ++ u ".html"
  end.

(** The record of one listing item, as appended to [extracted_cars]. *)
Definition mock_item_car (L : lib) (X : extractor) (timestamp idx : N)
    (item : element) : car_data :=
  let d := parse_car_detail_page X (outer_html X item)
             (mock_item_url L timestamp idx item) in
  mk_car_data (cd_url d)
    (with_mock_fields (cd_fields d)
       (u "AA" ++ zero_padded 4 idx ++ u "AA")
       (u "WBAAA" ++ zero_padded 5 idx ++ u "XXX00000")
       (u "Seller" ++ decimal idx)
       (u "+3809999" ++ zero_padded 5 idx))
    (Some match cd_location d with
          | Some l => l
          | None => u "City" ++ decimal idx
          end).

Fixpoint mock_item_cars (L : lib) (X : extractor) (timestamp idx : N)
    (items : list element) : list car_data :=
  match items with
  | [] => []
  | item :: rest =>
      mock_item_car L X timestamp idx item
        :: mock_item_cars L X timestamp (idx + 1) rest
  end.

Definition opt_eqb {A : Type} (eqb : A -> A -> bool) (a b : option A) : bool :=
  match a, b with
  | Some x, Some y => eqb x y
  | None, None => true
  | _, _ => false
  end.

Definition fields_eqb (a b : car_fields) : bool :=
  str_eqb (title a) (title b)
  && opt_eqb N.eqb (price_usd a) (price_usd b)
  && opt_eqb N.eqb (odometer a) (odometer b)
  && opt_eqb str_eqb (username a) (username b)
  && opt_eqb str_eqb (phone_number a) (phone_number b)
  && opt_eqb str_eqb (image_url a) (image_url b)
  && (images_count a =? images_count b)
  && opt_eqb str_eqb (car_number a) (car_number b)
  && opt_eqb str_eqb (car_vin a) (car_vin b).

(** [a == b] on the dictionaries. *)
Definition car_data_eqb (a b : car_data) : bool :=
  str_eqb (cd_url a) (cd_url b) && fields_eqb (cd_fields a) (cd_fields b)
  && opt_eqb str_eqb (cd_location a) (cd_location b).

(** The existence check followed by the insert of the columns of the
    dictionary (the key [location] left out). *)
Definition insert_if_new (d : car_data) (s : session) : session * bool :=
  match select_car (cd_url d) s with
  | Some _ => (s, false)
  | None => add_commit (mk_Car (cd_url d) (cd_fields d)) s
  end.

(** "Save cars to the database": the loop over [extracted_cars]. *)
Fixpoint save_extracted (detail_car_data : option car_data)
    (extracted_cars : list car_data) (s : session) (saved_cars : N)
  : session * N :=
  match extracted_cars with
  | [] => (s, saved_cars)
  | d :: rest =>
      if match detail_car_data with
         | Some detail => car_data_eqb d detail
         | None => false
         end
      then save_extracted detail_car_data rest s saved_cars
      else if negb (truthy (cd_url d))
      then save_extracted detail_car_data rest s saved_cars
      else
        let (s', written) := insert_if_new d s in
        save_extracted detail_car_data rest s'
          (if written then saved_cars + 1 else saved_cars)
  end.

(** The records the run extracts: the detail record, when a detail file
    was found, then one record per listing item. *)
Definition mock_extracted_cars (L : lib) (X : extractor)
    (listing_html : pystr) (detail_html : option pystr) (timestamp : N)
  : list car_data :=
  match detail_html with
  | Some html => [mock_detail_car X html]
  | None => []
  end
  ++ mock_item_cars L X timestamp 0
       (soup_select mock_item_selector (BeautifulSoup L listing_html)).

(** The session after the run, and the count [saved_cars]. *)
Definition process_mock_data (L : lib) (X : extractor)
    (listing_html : pystr) (detail_html : option pystr) (timestamp : N)
    (s : session) : session * N :=
  let detail_car_data := option_map (mock_detail_car X) detail_html in
  let s :=
    match detail_car_data with
    | Some d => fst (insert_if_new d s)
    | None => s
    end in
  save_extracted detail_car_data
    (mock_extracted_cars L X listing_html detail_html timestamp) s 0.

(** ** The crawl ([enhanced_playwright_scraper.py]) *)

Record settings : Type := mk_settings {
  AUTO_RIA_START_URL : pystr;
  MAX_PAGES : Z;
  MAX_TICKETS_PER_RUN : Z;
  TEST_MODE : bool
}.

(** The browser and the site behind it.  Each call is given the pages the
    browser was sent to before, so that its answer may depend on them.
    [fetch_with_playwright] answers the content, the empty text on
    failure; [extract_phone_number] is the reveal of the phone number;
    [browser_next_page_url] is [get_next_page_url(page, current_url)]. *)
Record browser : Type := mk_browser {
  fetch_with_playwright : list pystr -> pystr -> pystr;
  extract_phone_number : list pystr -> pystr -> pystr -> option pystr;
  browser_next_page_url : list pystr -> pystr -> option pystr
}.

(** How the processing of one detail URL ended. *)
Inductive outcome : Type :=
| NoCarId          (* no identifier in the URL: logged, nothing done *)
| AlreadyExists    (* the URL is in the table: nothing done *)
| FetchFailed      (* the page could not be fetched *)
| Saved            (* a row was written *)
| Failed.          (* an exception was caught and the session rolled back *)

Record crawl : Type := mk_crawl {
  db : session;
  visited : list pystr;                 (* pages the browser was sent to *)
  outcomes : list (pystr * outcome)     (* one entry per processed detail URL *)
}.

(** [auto_([^.]+)\.html] *)
Definition re_car_id : regex :=
  Seq (lit (u "auto_"))
   (Seq (Grp (Many1 (fun c => negb (c =? 0x2E)))) (lit (u ".html"))).

Definition set_phone_number (d : car_data) (phone : option pystr) : car_data :=
  let f := cd_fields d in
  mk_car_data (cd_url d)
    (mk_fields (title f) (price_usd f) (odometer f) (username f) phone
       (image_url f) (images_count f) (car_number f) (car_vin f))
    (cd_location d).

Definition process_car_page (X : extractor) (B : browser) (car_url : pystr)
    (c : crawl) : crawl :=
  let finish c o := mk_crawl (db c) (visited c) (outcomes c ++ [(car_url, o)]) in
  match search re_car_id car_url with
  | None => finish c NoCarId
  | Some car_id_match =>
      let ad_id := nth 1 car_id_match [] in
      match select_car car_url (db c) with
      | Some existing_car => finish c AlreadyExists
      | None =>
          let html := fetch_with_playwright B (visited c) car_url in
          let c := mk_crawl (db c) (visited c ++ [car_url]) (outcomes c) in
          if negb (truthy html) then finish c FetchFailed
          else
            let phone_number := extract_phone_number B (visited c) car_url ad_id in
            let car_data := parse_car_detail_page X html car_url in
            let car_data := set_phone_number car_data phone_number in
            match new_Car car_data with
            | Raised => finish c Failed
            | Returned new_car =>
                let (s, written) := add_commit new_car (db c) in
                finish (mk_crawl s (visited c) (outcomes c))
                  (if written then Saved else Failed)
            end
      end
  end.

(** "Process each car link up to the ticket limit": the session and logs
    after the loop, and the counter [processed_tickets]. *)
Fixpoint dispatch_items (cfg : settings) (X : extractor) (B : browser)
    (car_links : list pystr) (c : crawl) (processed_tickets : Z) : crawl * Z :=
  match car_links with
  | [] => (c, processed_tickets)
  | car_link :: rest =>
      if (processed_tickets >=? MAX_TICKETS_PER_RUN cfg)%Z then (c, processed_tickets)
      else
        let c := process_car_page X B car_link c in
        dispatch_items cfg X B rest c (processed_tickets + 1)%Z
  end.

(** Why the loop over the pages ended. *)
Inductive stop : Type :=
| LimitReached     (* the loop condition failed *)
| ListingFailed    (* the listing page could not be fetched *)
| NoCarLinks       (* the listing page gave no links *)
| NoNextPage       (* no next page URL *)
| SamePage         (* the next page URL is the current one *)
| OutOfFuel.

Record run : Type := mk_run {
  state : crawl;
  listing_fetches : list pystr;         (* listing pages fetched, in order *)
  processed_tickets : Z;
  processed_pages : Z;
  current_url : pystr
}.

(** The [while] loop of [run_enhanced_playwright_scraper]; [fuel] bounds
    the number of iterations. *)
Fixpoint crawl_pages (fuel : nat) (cfg : settings) (L : lib) (X : extractor)
    (B : browser) (r : run) : run * stop :=
  if negb ((processed_pages r <? MAX_PAGES cfg)%Z
           && (processed_tickets r <? MAX_TICKETS_PER_RUN cfg)%Z)
  then (r, LimitReached)
  else
    match fuel with
    | O => (r, OutOfFuel)
    | S fuel' =>
        let c := state r in
        let html := fetch_with_playwright B (visited c) (current_url r) in
        let c := mk_crawl (db c) (visited c ++ [current_url r]) (outcomes c) in
        let fetches := listing_fetches r ++ [current_url r] in
        if negb (truthy html)
        then (mk_run c fetches (processed_tickets r) (processed_pages r)
                (current_url r), ListingFailed)
        else
          match parse_car_listing_page_enhanced L html with
          | [] => (mk_run c fetches (processed_tickets r) (processed_pages r)
                     (current_url r), NoCarLinks)
          | car_links =>
              let (c, tickets) :=
                dispatch_items cfg X B car_links c (processed_tickets r) in
              let pages := (processed_pages r + 1)%Z in
              match browser_next_page_url B (visited c) (current_url r) with
              | Some next_page_url =>
                  if truthy next_page_url
                  then crawl_pages fuel' cfg L X B
                         (mk_run c fetches tickets pages next_page_url)
                  else (mk_run c fetches tickets pages (current_url r), NoNextPage)
              | None => (mk_run c fetches tickets pages (current_url r), NoNextPage)
              end
          end
    end.

Definition run_enhanced_playwright_scraper (cfg : settings) (L : lib)
    (X : extractor) (B : browser) (s : session) : run * stop :=
  crawl_pages (Z.to_nat (MAX_PAGES cfg)) cfg L X B
    (mk_run (mk_crawl s [] []) [] 0%Z 0%Z (AUTO_RIA_START_URL cfg)).

(** ** The crawl over HTTP ([scraper.py]) *)

(** [fetch_page] with its retries: the content, or [None] when it raised
    or gave nothing. *)
Record http_client : Type := mk_http_client {
  fetch_page : list pystr -> pystr -> option pystr
}.

(** [process_car_page]: the page is fetched; [parse_car_detail_page] is an
    ordinary function and the dictionary it returns is awaited, which
    raises [TypeError]; the [except] clause logs it.  Nothing is saved. *)
Definition http_process_car_page (H : http_client) (car_url : pystr) (c : crawl)
  : crawl :=
  let fetched := fetch_page H (visited c) car_url in
  mk_crawl (db c) (visited c ++ [car_url]) (outcomes c ++ [(car_url, Failed)]).

(** [process_listing_page]: the state after it and the next page URL. *)
Definition process_listing_page (cfg : settings) (L : lib) (H : http_client)
    (page_url : pystr) (c : crawl) : crawl * option pystr :=
  let fetched := fetch_page H (visited c) page_url in
  let c := mk_crawl (db c) (visited c ++ [page_url]) (outcomes c) in
  match fetched with
  | None => (c, None)
  | Some html =>
      match parse_car_listing_page L html with
      | [] => (c, match get_next_page_url L html page_url with
                  | Some next_page_url =>
                      if truthy next_page_url then Some next_page_url else None
                  | None => None
                  end)
      | car_urls =>
          let car_urls := if TEST_MODE cfg then firstn 3 car_urls else car_urls in
          (fold_left (fun c car_url => http_process_car_page H car_url c) car_urls c,
           get_next_page_url L html page_url)
      end
  end.

Record http_run : Type := mk_http_run {
  http_state : crawl;
  http_listing_fetches : list pystr;
  page_count : Z;
  current_page_url : pystr
}.

(** The [while] loop of [run_scraper]. *)
Fixpoint http_crawl_pages (fuel : nat) (cfg : settings) (L : lib)
    (H : http_client) (max_pages : Z) (r : http_run) : http_run * stop :=
  if negb (truthy (current_page_url r) && (page_count r <? max_pages)%Z)
  then (r, LimitReached)
  else
    match fuel with
    | O => (r, OutOfFuel)
    | S fuel' =>
        let (c, next_page_url) :=
          process_listing_page cfg L H (current_page_url r) (http_state r) in
        let fetches := http_listing_fetches r ++ [current_page_url r] in
        match next_page_url with
        | None => (mk_http_run c fetches (page_count r) (current_page_url r), NoNextPage)
        | Some next_page_url =>
            if negb (truthy next_page_url)
            then (mk_http_run c fetches (page_count r) (current_page_url r), NoNextPage)
            else if str_eqb next_page_url (current_page_url r)
            then (mk_http_run c fetches (page_count r) (current_page_url r), SamePage)
            else http_crawl_pages fuel' cfg L H max_pages
                   (mk_http_run c fetches (page_count r + 1)%Z next_page_url)
        end
    end.

Definition run_scraper (cfg : settings) (L : lib) (H : http_client) (s : session)
  : http_run * stop :=
  let max_pages := if TEST_MODE cfg then 1%Z else MAX_PAGES cfg in
  http_crawl_pages (Z.to_nat max_pages) cfg L H max_pages
    (mk_http_run (mk_crawl s [] []) [] 0%Z (AUTO_RIA_START_URL cfg)).

(** ** Sample content *)

Definition elem (t : string) (classes : list pystr) (attrs : list (pystr * pystr))
    (contents : list node) : node :=
  Tag (mk_head (u t) classes attrs) contents.

(** A listing item's mileage entry: [<li class="item-char js-race">t</li>]. *)
Definition listing_mileage (t : pystr) : soup :=
  [elem "li" [u "item-char"; u "js-race"] [] [Text t]].

(** A detail page's mileage block:
    [<div class="base-information bold"><span class="size18">v</span>rest</div>]. *)
Definition detail_mileage (v rest : pystr) : soup :=
  [elem "div" [u "base-information"; u "bold"] []
     [elem "span" [u "size18"] [] [Text v]; Text rest]].

(** A VIN label with an icon and a tooltip around the text:
    [<span class="label-vin"><svg>icon</svg>t<span class="popup">tip</span></span>]. *)
Definition vin_label (icon : list node) (t : pystr) (tip : list node) : soup :=
  [elem "span" [u "label-vin"] []
     [elem "svg" [] [] icon; Text t; elem "span" [u "popup"] [] tip]].

(** A site for the crawl: extractors that find nothing but a title, a
    browser without a network, and one known car. *)
Definition no_fields : car_fields :=
  mk_fields (u "Unknown") None None None None None 0 None None.

Definition plain_extractor : extractor :=
  mk_extractor (fun _ => no_fields) (fun _ => None) (fun _ => []).

Definition offline_browser : browser :=
  mk_browser (fun _ _ => []) (fun _ _ _ => None) (fun _ _ => None).

Definition known_car_url : pystr := u "https://auto.ria.com/uk/auto_bmw_x5_1.html".

Definition session_with_known_car : session :=
  mk_session [mk_Car known_car_url no_fields] [known_car_url].

Definition small_settings : settings :=
  mk_settings (u "https://auto.ria.com/uk/car/used/") 3 5 false.

(** A listing page with one item and a pager whose next link leads to
    the page itself. *)
Definition last_page_url : pystr := u "https://auto.ria.com/uk/car/used/?page=7".

Definition last_page : soup :=
  [elem "section" [u "ticket-item"] []
     [elem "a" [u "address"] [(u "href", u "/uk/auto_bmw_x5_1.html")]
        [Text (u "BMW X5")]];
   elem "a" [] [(u "rel", u "next"); (u "href", last_page_url)] [Text (u ">")]].

Definition last_page_lib : lib :=
  mk_lib (fun _ => last_page) (fun base rel => site_origin ++ rel).

Definition last_page_browser : browser :=
  mk_browser (fun _ _ => u "<html>page 7</html>") (fun _ _ _ => None)
    (fun _ _ => Some last_page_url).

Definition last_page_client : http_client :=
  mk_http_client (fun _ _ => Some (u "<html>page 7</html>")).

Definition last_page_settings : settings := mk_settings last_page_url 3 10 false.

(** No page occurs twice in a row in a log of fetches. *)
Fixpoint no_refetch (l : list pystr) : Prop :=
  match l with
  | x :: (y :: _) as t => x <> y /\ no_refetch t
  | _ => True
  end.

(** A session in which every insert issued wrote a row, and no two rows
    have the same URL. *)
Definition consistent (s : session) : Prop :=
  NoDup (map url (rows s)) /\ inserts s = map url (rows s).

(** The records the save loop passes over: the detail record itself and
    records without a URL. *)
Definition passed_over (detail_car_data : option car_data) (d : car_data) : bool :=
  match detail_car_data with
  | Some detail => car_data_eqb d detail
  | None => false
  end || negb (truthy (cd_url d)).

(** A listing file with one item that has no link. *)
Definition unlinked_listing_lib : lib :=
  mk_lib (fun _ => [elem "div" [u "content-bar"] [] [Text (u "BMW X5 2015")]])
    (fun base rel => site_origin ++ rel).

(** Item blocks of a listing: [section.ticket-item] elements.  The link of
    a well-formed block: the [href] of its only anchor, which names a
    detail page. *)
Definition item_block_selector : selector := [[cls "ticket-item" (tag "section")]].

Definition block_link (b : element) : option pystr :=
  match select [[tag "a"]] b with
  | [a] =>
      match get (el_head a) (u "href") with
      | Some href => if contains (u "auto_") href then Some href else None
      | None => None
      end
  | _ => None
  end.

(** A listing item block with one link:
    [<section class="ticket-item"><div class="content-bar"><a class="address" href=...>t</a></div></section>]. *)
Definition item_block (href t : pystr) : node :=
  elem "section" [u "ticket-item"] []
    [elem "div" [u "content-bar"] []
       [elem "a" [u "address"] [(u "href", href)] [Text t]]].

(** The same item in the other layout: [<div class="content-ticket">...</div>]. *)
Definition ticket_block (href t : pystr) : node :=
  elem "div" [u "content-ticket"] []
    [elem "a" [u "address"] [(u "href", href)] [Text t]].

Definition page_lib (doc : soup) : lib :=
  mk_lib (fun _ => doc) (fun base rel => site_origin ++ rel).

(** The link an element contributes: its URL made absolute. *)
Definition contributes (L : lib) (e : element) (x : pystr) : Prop :=
  exists raw, find_car_url e = Some raw /\ truthy raw = true
              /\ x = absolute_url L raw.

(** A listing page that mixes two layouts. *)
Definition mixed_page : soup :=
  [item_block (u "/uk/auto_bmw_x5_1.html") (u "BMW X5");
   ticket_block (u "/uk/auto_audi_a4_2.html") (u "Audi A4")].

(** A listing page on which two items carry the same link. *)
Definition repeated_page : soup :=
  [item_block (u "/uk/auto_bmw_x5_1.html") (u "BMW X5");
   item_block (u "/uk/auto_bmw_x5_1.html") (u "BMW X5 (top)")].

(** A listing page with two items. *)
Definition two_item_page : soup :=
  [item_block (u "/uk/auto_bmw_x5_1.html") (u "BMW X5");
   item_block (u "/uk/auto_audi_a4_2.html") (u "Audi A4")].

Definition listing_text : pystr := u "<html>listing</html>".

(** A text without blanks that is not empty. *)
Definition solid (m : pystr) : Prop :=
  m <> [] /\ forallb (fun c => negb (is_space c)) m = true.

(** The record of the known car, without a location. *)
Definition known_record : car_data := mk_car_data known_car_url no_fields None.

(** Extractors that find a location on every page. *)
Definition located_extractor : extractor :=
  mk_extractor (fun _ => no_fields) (fun _ => Some (u "Київ")) (fun _ => []).

Definition fresh_crawl : crawl := mk_crawl empty_session [] [].

(** The number of detail URLs whose processing wrote a row. *)
Definition saved_count (os : list (pystr * outcome)) : nat :=
  length (List.filter (fun o => match snd o with Saved => true | _ => false end) os).

(** The crawl state [c'] continues [c]: the session is still consistent,
    the rows of [c] are kept in place, and one row was added for every
    outcome [Saved] recorded since. *)
Definition continues (c c' : crawl) : Prop :=
  consistent (db c')
  /\ (exists added, rows (db c') = rows (db c) ++ added)
  /\ (length (rows (db c')) + saved_count (outcomes c)
      = length (rows (db c)) + saved_count (outcomes c'))%nat.

(** The link a next-page selector yields: the [href] of its first match,
    when that is not empty. *)
Definition usable_link (doc : soup) (sel : selector) : option pystr :=
  match soup_select_one sel doc with
  | Some next_link =>
      match get (el_head next_link) (u "href") with
      | Some h => if truthy h then Some h else None
      | None => None
      end
  | None => None
  end.

(** A detail page whose mileage value has no digit, beside a free text
    with a mileage. *)
Definition dash_mileage_page : soup :=
  detail_mileage (u "—") [] ++ [elem "p" [] [] [Text (u "пробіг 120 тис. км")]].

(** ** Fetching a page with retries ([scraper.py], [fetch_page])

    What the site does with the request number [k] of a call is given by
    a function of [k].  A response carries what the code looks at: whether
    its URL differs from the requested one, that URL, the status code,
    whether [raise_for_status] raises, and the text.  The waits kept are
    the back-off waits between attempts; the random wait before the first
    request and the copy of a marker page written for debugging are left
    out. *)

Module Http.

Inductive reply : Type :=
| Response (moved : bool) (final_url : pystr) (status_code : Z)
    (status_error : bool) (text : pystr)
| HTTPError      (* the request raised an [httpx.HTTPError] *)
| OtherError.    (* the request raised another exception *)

Definition max_retries : nat := 3.
Definition retry_delay : Z := 2.

(** The marker test on [content.lower()]; [lower_char] gives the lower
    case of every character that has a letter of these words in it. *)
Definition blocked_marker (content : pystr) : bool :=
  contains (u "captcha") (lower content) || contains (u "robot") (lower content)
  || contains (u "blocked") (lower content).

(** What one pass through the [try] block comes to. *)
Inductive verdict : Type :=
| Good (content : pystr)   (* [return content] *)
| Blocked                  (* a marker page: wait and [continue] *)
| Retry                    (* an [httpx.HTTPError] was raised *)
| Abort.                   (* another exception was raised *)

Definition judge (r : reply) : verdict :=
  match r with
  | Response moved final_url status_code status_error text =>
      if moved && negb (contains (u "auto_") final_url)
         && negb (contains (u "/car/used/") final_url)
      then Retry
      else if (status_code =? 403)%Z then Retry
      else if status_error then Retry
      else if blocked_marker text then Blocked
      else Good text
  | HTTPError => Retry
  | OtherError => Abort
  end.

(** How the call ended: with the content, with [None] (the loop ran out
    after a marker page), or with an exception. *)
Inductive fetched : Type :=
| Content (content : pystr)
| Nothing
| Raises.

Record fetch : Type := mk_fetch {
  result : fetched;
  requests : nat;        (* requests sent *)
  sleeps : list Z        (* back-off waits, in seconds, in order *)
}.

(** [for attempt in range(max_retries)], from [attempt] on. *)
Fixpoint attempts (site : nat -> reply) (attempt remaining : nat) (waits : list Z)
  : fetch :=
  match remaining with
  | O => mk_fetch Nothing attempt waits
  | S remaining' =>
      match judge (site attempt) with
      | Good content => mk_fetch (Content content) (S attempt) waits
      | Blocked =>
          if (attempt <? max_retries - 1)%nat
          then attempts site (S attempt) remaining'
                 (waits ++ [(retry_delay * 4 ^ Z.of_nat attempt)%Z])
          else attempts site (S attempt) remaining' waits
      | Retry =>
          if (attempt <? max_retries - 1)%nat
          then attempts site (S attempt) remaining'
                 (waits ++ [(retry_delay * 2 ^ Z.of_nat attempt)%Z])
          else mk_fetch Raises (S attempt) waits
      | Abort => mk_fetch Raises (S attempt) waits
      end
  end.

Definition fetch_page (site : nat -> reply) : fetch :=
  attempts site 0 max_retries [].

(** Waits that grow strictly. *)
Fixpoint increasing (l : list Z) : Prop :=
  match l with
  | x :: (y :: _) as t => (x < y)%Z /\ increasing t
  | _ => True
  end.

End Http.

(** ** Static fields of a detail page ([parser.py]) *)

Module Parser.

Definition or_empty (o : option pystr) : pystr :=
  match o with Some s => s | None => [] end.

(** [extract_phone_number] *)
Definition extract_phone_number (car_soup : soup) : option pystr :=
  let by_attribute (sel : selector) (key : pystr) : option pystr :=
    match soup_select_one sel car_soup with
    | Some phone_element =>
        let phone := or_empty (get (el_head phone_element) key) in
        if truthy phone then Some (format_phone_number phone) else None
    | None => None
    end in
  match by_attribute [[has_attr "data-phone-number" (cls "phone" any_tag)]]
          (u "data-phone-number") with
  | Some r => Some r
  | None =>
      match by_attribute [[has_attr "data-value" any_tag]] (u "data-value") with
      | Some r => Some r
      | None =>
          match soup_select_one
                  [[has_attr "data-phone-unmask" (cls "phone" (tag "span"))]]
                  car_soup with
          | Some phone_element =>
              let phone :=
                or_empty (get (el_head phone_element) (u "data-phone-number")) in
              let phone :=
                if truthy phone then phone else strip (text phone_element) in
              if truthy phone then Some (format_phone_number phone) else None
          | None => None
          end
      end
  end.

(** [extract_car_number] *)
Definition extract_car_number (car_soup : soup) : option pystr :=
  match soup_select_one [[cls "state-num" any_tag]] car_soup with
  | Some car_number_element =>
      let car_number_element := decompose_first is_popup car_number_element in
      Some (strip (text car_number_element))
  | None => None
  end.

End Parser.

(** A site that answers every request with a marker page, and one that
    fails every request. *)
Definition captcha_site : nat -> Http.reply :=
  fun _ => Http.Response false (u "https://auto.ria.com/uk/car/used/") 200 false
             (u "<html>Please solve the CAPTCHA</html>").

Definition failing_site : nat -> Http.reply := fun _ => Http.HTTPError.

(** A site that blocks the first request and serves the page on the
    second. *)
Definition recovering_site : nat -> Http.reply :=
  fun k => match k with
           | O => captcha_site O
           | _ => Http.Response false (u "https://auto.ria.com/uk/car/used/") 200
                    false (u "<html>listing</html>")
           end.

(** A plate with its tooltip:
    [<span class="state-num">t<span class="popup">tip</span></span>]. *)
Definition plate_label (t : pystr) (tip : list node) : soup :=
  [elem "span" [u "state-num"] [] [Text t; elem "span" [u "popup"] [] tip]].

(** A contact block with a phone in an attribute. *)
Definition phone_block (number : pystr) : soup :=
  [elem "span" [u "phone"] [(u "data-phone-number", number)] [Text (u "показати")]].

(** * Properties *)

(** ** Strings *)

Lemma str_eqb_eq (s t : pystr) : str_eqb s t = true <-> s = t.
Proof.
  revert t; induction s as [|a s IH]; intros [|b t]; simpl; split;
    try congruence; try discriminate.
  - intros [Hab Hst]%andb_true_iff. apply N.eqb_eq in Hab. apply IH in Hst.
    congruence.
  - intros [= -> ->]. rewrite N.eqb_refl. simpl. now apply IH.
Qed.

Lemma str_eqb_refl (s : pystr) : str_eqb s s = true.
Proof. now apply str_eqb_eq. Qed.

Lemma str_eqb_neq (s t : pystr) : str_eqb s t = false <-> s <> t.
Proof.
  split.
  - intros H E. apply str_eqb_eq in E. congruence.
  - intros H. destruct (str_eqb s t) eqn:E; [|reflexivity].
    apply str_eqb_eq in E. contradiction.
Qed.

Lemma existsb_str_eqb (x : pystr) (l : list pystr) :
  existsb (str_eqb x) l = true <-> In x l.
Proof.
  rewrite existsb_exists. split.
  - intros [y [Hy E]]. apply str_eqb_eq in E. now subst.
  - intros H. exists x. split; [assumption|apply str_eqb_refl].
Qed.

Lemma startswith_app (p s : pystr) : startswith p (p ++ s) = true.
Proof. induction p as [|a p IH]; simpl; [reflexivity|]. now rewrite N.eqb_refl. Qed.

Lemma contains_nonempty (p s : pystr) :
  p <> [] -> contains p s = true -> s <> [].
Proof.
  intros Hp H ->. destruct p as [|a p]; [contradiction|]. simpl in H. discriminate.
Qed.

(** ** Phone numbers *)

Lemma strip_non_phone_all (s : pystr) :
  forallb digit_or_plus (strip_non_phone s) = true.
Proof.
  unfold strip_non_phone. apply forallb_forall. intros c Hc.
  now apply filter_In in Hc.
Qed.

Lemma lstrip_plus_digits (s : pystr) :
  forallb is_digit s = true -> lstrip_chars (u "+") s = s.
Proof.
  destruct s as [|c s]; [reflexivity|]. intros [Hc _]%andb_true_iff.
  change (lstrip_chars (u "+") (c :: s))
    with (if (c =? 43) || false then lstrip_chars (u "+") s else c :: s).
  destruct (c =? 43) eqn:E; [|reflexivity].
  apply N.eqb_eq in E. subst c. discriminate Hc.
Qed.

Lemma lstrip_plus_all (s : pystr) :
  forallb digit_or_plus s = true ->
  forallb digit_or_plus (lstrip_chars (u "+") s) = true.
Proof.
  induction s as [|c s IH]; [reflexivity|]. intros H.
  pose proof H as [Hc Hs]%andb_true_iff.
  change (lstrip_chars (u "+") (c :: s))
    with (if existsb (N.eqb c) (u "+") then lstrip_chars (u "+") s else c :: s).
  destruct (existsb (N.eqb c) (u "+")); [now apply IH|exact H].
Qed.

(** The shape of a result built on a kept text [plus_sign :: t]. *)
Lemma country_code_shape (t : pystr) :
  forallb digit_or_plus t = true ->
  let r := if truthy (plus_sign :: t) && negb (startswith (u "+38") (plus_sign :: t))
           then u "+38" ++ lstrip_chars (u "+") (plus_sign :: t)
           else plus_sign :: t in
  startswith (u "+38") r = true /\ forallb digit_or_plus r = true /\
  (forallb is_digit t = true ->
   exists ds, r = plus_sign :: ds /\ forallb is_digit ds = true
              /\ startswith (u "38") ds = true).
Proof.
  intros Ht r. subst r.
  change (lstrip_chars (u "+") (plus_sign :: t)) with (lstrip_chars (u "+") t).
  change (truthy (plus_sign :: t)) with true.
  destruct (startswith (u "+38") (plus_sign :: t)) eqn:E; cbn [andb negb].
  - split; [exact E|]. split; [simpl; exact Ht|].
    intros Hd. exists t. split; [reflexivity|]. split; [exact Hd|exact E].
  - split; [apply startswith_app|]. split.
    + rewrite forallb_app. rewrite lstrip_plus_all by exact Ht. reflexivity.
    + intros Hd. rewrite lstrip_plus_digits by exact Hd.
      exists (u "38" ++ t). split; [reflexivity|]. split.
      * rewrite forallb_app, Hd. reflexivity.
      * apply startswith_app.
Qed.

(** C10 -- An input without any digit and without any plus sign, the empty
    input included, is normalized to the empty string: no country code is
    put in front of nothing. *)
Theorem format_phone_number_absent (s : pystr) :
  forallb (fun c => negb (digit_or_plus c)) s = true ->
  format_phone_number s = [].
Proof.
  intros H. unfold format_phone_number.
  assert (E : strip_non_phone s = []).
  { unfold strip_non_phone. induction s as [|c s IH]; [reflexivity|].
    simpl in H. apply andb_true_iff in H as [Hc Hs]. simpl.
    apply negb_true_iff in Hc. rewrite Hc. now apply IH. }
  rewrite E. reflexivity.
Qed.

Lemma format_phone_number_absent_witness :
  forallb (fun c => negb (digit_or_plus c)) (u "n/a") = true
  /\ format_phone_number (u "n/a") = [].
Proof.
  split; [reflexivity|]. apply format_phone_number_absent. reflexivity.
Defined.

(** C9, as stated, fails: a text with two numbers keeps the plus sign of
    the second one, so the result is not a plus sign followed by digits. *)
Lemma format_phone_number_inner_plus :
  format_phone_number (u "0501234567, +380671234567")
    = u "+380501234567+380671234567"
  /\ ~ (exists ds, format_phone_number (u "0501234567, +380671234567")
                     = plus_sign :: ds
                   /\ forallb is_digit ds = true).
Proof.
  split; [reflexivity|]. intros [ds [E Hd]].
  vm_compute in E. injection E as <-. vm_compute in Hd. discriminate Hd.
Qed.

(** C9 (amended) -- For an input with at least one digit or plus sign the
    result starts with [+38] and holds digits and plus signs only; when no
    plus sign follows the first character kept, the result is one plus
    sign followed by digits that start with the country code 38. *)
Theorem format_phone_number_shape (s : pystr) :
  strip_non_phone s <> [] ->
  startswith (u "+38") (format_phone_number s) = true
  /\ forallb digit_or_plus (format_phone_number s) = true
  /\ (forallb is_digit (tl (strip_non_phone s)) = true ->
      exists ds, format_phone_number s = plus_sign :: ds
                 /\ forallb is_digit ds = true
                 /\ startswith (u "38") ds = true).
Proof.
  intros Hne. unfold format_phone_number.
  pose proof (strip_non_phone_all s) as Hall.
  destruct (strip_non_phone s) as [|c k] eqn:Ek; [contradiction|].
  simpl in Hall. apply andb_true_iff in Hall as [Hc Hk].
  change (truthy (c :: k)) with true.
  change (startswith (u "+") (c :: k)) with ((43 =? c) && true).
  rewrite andb_true_r. cbn [andb tl].
  destruct (43 =? c) eqn:Ec; cbn [negb].
  - apply N.eqb_eq in Ec. subst c. apply (country_code_shape k Hk).
  - pose proof (country_code_shape (c :: k)) as S.
    assert (Hck : forallb digit_or_plus (c :: k) = true)
      by (simpl; now rewrite Hc, Hk).
    specialize (S Hck). cbv zeta in S. destruct S as [S1 [S2 S3]].
    change (u "+" ++ c :: k) with (plus_sign :: c :: k).
    split; [exact S1|]. split; [exact S2|].
    intros Hd. apply S3. simpl. rewrite Hd, andb_true_r.
    unfold digit_or_plus in Hc. apply orb_true_iff in Hc as [Hc|Hc]; [exact Hc|].
    unfold plus_sign in Hc. rewrite N.eqb_sym in Hc. congruence.
Qed.

Lemma format_phone_number_shape_witness :
  startswith (u "+38") (format_phone_number (u "(050) 123-45-67")) = true
  /\ forallb digit_or_plus (format_phone_number (u "(050) 123-45-67")) = true
  /\ (forallb is_digit (tl (strip_non_phone (u "(050) 123-45-67"))) = true ->
      exists ds, format_phone_number (u "(050) 123-45-67") = plus_sign :: ds
                 /\ forallb is_digit ds = true
                 /\ startswith (u "38") ds = true).
Proof. apply format_phone_number_shape. discriminate. Defined.

(** ** The document *)

Lemma node_forall_ind (P : node -> Prop) :
  (forall s, P (Text s)) ->
  (forall h cs, Forall P cs -> P (Tag h cs)) ->
  forall n, P n.
Proof.
  intros HT HE. fix IH 1. intros [s|h cs]; [apply HT|]. apply HE.
  induction cs as [|c cs IHcs]; constructor; [apply IH|exact IHcs].
Qed.

(** An element sits among the contents of its parent. *)
Lemma elements_of_parent (n : node) :
  forall anc e, In e (elements_of anc n) ->
    (el_ancestors e = anc /\ Tag (el_head e) (el_contents e) = n)
    \/ (exists h c rest, el_ancestors e = (h, c) :: rest
                         /\ In (Tag (el_head e) (el_contents e)) c).
Proof.
  induction n as [s|h cs IH] using node_forall_ind; intros anc e He.
  - destruct He.
  - simpl in He. destruct He as [<-|He]; [left; split; reflexivity|].
    right. apply in_flat_map in He as [child [Hchild He]].
    rewrite List.Forall_forall in IH.
    destruct (IH child Hchild _ _ He) as [[Ha Hn]|Hdeep].
    + exists h, cs, anc. split; [exact Ha|]. rewrite Hn. exact Hchild.
    + exact Hdeep.
Qed.

Lemma soup_element_in_parent (doc : soup) (e : element) :
  In e (soup_elements doc) ->
  In (Tag (el_head e) (el_contents e)) (parent_contents doc e).
Proof.
  intros He. apply in_flat_map in He as [n [Hn He]].
  unfold parent_contents.
  destruct (elements_of_parent n _ _ He) as [[Ha Hroot]|[h [c [rest [Ha Hin]]]]];
    rewrite Ha; [rewrite Hroot; exact Hn|exact Hin].
Qed.

Lemma soup_select_one_in (sel : selector) (doc : soup) (e : element) :
  soup_select_one sel doc = Some e ->
  In e (soup_elements doc) /\ selector_matches sel e = true.
Proof. intros H. now apply find_some in H. Qed.

Lemma contents_text_in (h : tag_head) (c cs : list node) :
  In (Tag h c) cs -> exists a b, contents_text cs = a ++ contents_text c ++ b.
Proof.
  intros H. apply in_split in H as [l1 [l2 ->]].
  exists (contents_text l1), (contents_text l2).
  unfold contents_text. rewrite flat_map_app. reflexivity.
Qed.

(** ** Stripping and searching *)

Lemma lstrip_suffix (s : pystr) : exists a, s = a ++ lstrip s.
Proof.
  induction s as [|c s [a IH]]; [now exists []|]. simpl.
  destruct (is_space c); [|now exists []].
  exists (c :: a). simpl. now rewrite <- IH.
Qed.

Lemma strip_inside (s : pystr) : exists a b, s = a ++ strip s ++ b.
Proof.
  destruct (lstrip_suffix s) as [a Ha].
  destruct (lstrip_suffix (rev (lstrip s))) as [b Hb].
  exists a, (rev b). unfold strip, rstrip.
  rewrite <- rev_app_distr, <- Hb, rev_involutive. exact Ha.
Qed.

Lemma lstrip_keeps (a m b : pystr) :
  solid m -> exists a', lstrip (a ++ m ++ b) = a' ++ m ++ b.
Proof.
  intros [Hne Hm]. induction a as [|x a [a' IH]].
  - exists []. destruct m as [|c m]; [contradiction|]. simpl in *.
    apply andb_true_iff in Hm as [Hc _]. apply negb_true_iff in Hc.
    now rewrite Hc.
  - simpl. destruct (is_space x); [now exists a'|now exists (x :: a)].
Qed.

Lemma solid_rev (m : pystr) : solid m -> solid (rev m).
Proof.
  intros [Hne Hm]. split.
  - intros E. apply Hne. rewrite <- (rev_involutive m), E. reflexivity.
  - rewrite forallb_forall in *. intros c Hc. apply Hm. now apply in_rev.
Qed.

Lemma strip_keeps (a m b : pystr) :
  solid m -> exists a' b', strip (a ++ m ++ b) = a' ++ m ++ b'.
Proof.
  intros Hm. destruct (lstrip_keeps a m b Hm) as [a' Ha].
  destruct (lstrip_keeps (rev b) (rev m) (rev a') (solid_rev m Hm)) as [b' Hb].
  exists a', (rev b'). unfold strip, rstrip. rewrite Ha.
  rewrite !rev_app_distr, <- app_assoc, Hb.
  rewrite !rev_app_distr, !rev_involutive, <- app_assoc. reflexivity.
Qed.

Lemma strip_exact (ws1 m ws2 : pystr) :
  solid m -> forallb is_space ws1 = true -> forallb is_space ws2 = true ->
  strip (ws1 ++ m ++ ws2) = m.
Proof.
  intros [Hne Hm] H1 H2.
  assert (L : forall ws x r, forallb is_space ws = true ->
              is_space x = false -> lstrip (ws ++ x :: r) = x :: r).
  { intros ws x r Hws Hx. induction ws as [|w ws IH]; simpl.
    - now rewrite Hx.
    - simpl in Hws. apply andb_true_iff in Hws as [Hw Hws]. rewrite Hw. now apply IH. }
  assert (head_solid : forall m', solid m' -> exists x r, m' = x :: r /\ is_space x = false).
  { intros [|x r] [Hn Hs]; [contradiction|]. exists x, r. split; [reflexivity|].
    simpl in Hs. apply andb_true_iff in Hs as [Hx _]. now apply negb_true_iff in Hx. }
  destruct (head_solid m (conj Hne Hm)) as [x [r [-> Hx]]].
  unfold strip, rstrip. rewrite <- app_comm_cons, (L ws1 x (r ++ ws2) H1 Hx).
  destruct (head_solid (rev (x :: r)) (solid_rev _ (conj Hne Hm))) as [y [q [Hq Hy]]].
  change (x :: r ++ ws2) with ((x :: r) ++ ws2).
  rewrite rev_app_distr, Hq, (L (rev ws2) y q).
  - rewrite <- Hq. apply rev_involutive.
  - rewrite forallb_forall in *. intros c Hc. apply H2. now apply in_rev.
  - exact Hy.
Qed.

Lemma contains_middle (p a b : pystr) : contains p (a ++ p ++ b) = true.
Proof.
  assert (U : forall s, contains p s
                = startswith p s
                  || match s with [] => false | _ :: s' => contains p s' end)
    by (intros [|? ?]; reflexivity).
  induction a as [|x a IH]; rewrite U.
  - simpl app. now rewrite startswith_app.
  - cbn [app]. rewrite IH. apply orb_true_r.
Qed.

Lemma lower_app (a b : pystr) : lower (a ++ b) = lower a ++ lower b.
Proof. unfold lower. apply flat_map_app. Qed.

(** A container whose text holds [тис] between other text has the
    thousands marker. *)
Lemma thousands_marker_inside (a b : pystr) :
  contains (u "тис") (lower (strip (a ++ u "тис" ++ b))) = true.
Proof.
  destruct (strip_keeps a (u "тис") b) as [a' [b' ->]].
  - split; [discriminate|reflexivity].
  - rewrite !lower_app. change (lower (u "тис")) with (u "тис").
    apply contains_middle.
Qed.

(** ** Odometer *)

(** C5, as stated, fails for the listing layout: the mileage entry of a
    listing item that reads [120 км] gives no value, not 120. *)
Lemma extract_odometer_listing_plain_km :
  extract_odometer (listing_mileage (u "120 км")) = None
  /\ extract_odometer (listing_mileage (u "120 км")) <> Some 120.
Proof. split; [reflexivity|discriminate]. Qed.

(** C5 (amended) -- When the odometer is read from the detail layout (a
    [.size18] value inside a [.base-information] container, no listing
    entry matching the thousands pattern), the text [120 тис. км] gives
    120000 and the text [120 км] in a container without the marker [тис]
    gives 120.  A listing entry ([li.item-char.js-race]) reading
    [120 тис. км] gives 120000 as well. *)
Theorem extract_odometer_thousands (doc : soup) :
  (forall e, listing_odometer doc = None ->
     soup_select_one detail_odometer_selector doc = Some e ->
     (strip (text e) = u "120 тис. км" -> extract_odometer doc = Some 120000)
     /\ (strip (text e) = u "120 км" ->
         contains (u "тис") (lower (strip (parent_text doc e))) = false ->
         extract_odometer doc = Some 120))
  /\ (forall l, soup_select_one listing_odometer_selector doc = Some l ->
        strip (text l) = u "120 тис. км" -> extract_odometer doc = Some 120000).
Proof.
  split.
  - intros e Hl Hsel. split.
    + intros Ht. unfold extract_odometer, extract_odometer_body.
      rewrite Hl, Hsel. cbv zeta. rewrite Ht.
      change (int_of (digits_only (u "120 тис. км"))) with (Some 120).
      destruct (soup_select_one_in _ _ _ Hsel) as [Hin _].
      destruct (contents_text_in _ _ _ (soup_element_in_parent doc e Hin))
        as [a [b Hab]].
      destruct (strip_inside (text e)) as [a1 [b1 He]]. rewrite Ht in He.
      assert (E : parent_text doc e
                  = (a ++ a1 ++ u "120 ") ++ u "тис" ++ (u ". км" ++ b1 ++ b)).
      { unfold parent_text. rewrite Hab. unfold text in He. rewrite He.
        change (u "120 тис. км") with (u "120 " ++ u "тис" ++ u ". км").
        rewrite <- !app_assoc. reflexivity. }
      rewrite E, thousands_marker_inside. reflexivity.
    + intros Ht Hm. unfold extract_odometer, extract_odometer_body.
      rewrite Hl, Hsel. cbv zeta. rewrite Ht, Hm. reflexivity.
  - intros l Hsel Ht. unfold extract_odometer, extract_odometer_body, listing_odometer.
    rewrite Hsel, Ht. reflexivity.
Qed.

Lemma extract_odometer_thousands_witness :
  extract_odometer (detail_mileage (u "120 тис. км") []) = Some 120000
  /\ extract_odometer (detail_mileage (u "120 км") []) = Some 120.
Proof.
  split.
  - apply (proj1 (extract_odometer_thousands (detail_mileage (u "120 тис. км") []))
             (mk_element
                [(mk_head (u "div") [u "base-information"; u "bold"] [],
                  [elem "span" [u "size18"] [] [Text (u "120 тис. км")]; Text []])]
                (mk_head (u "span") [u "size18"] []) [Text (u "120 тис. км")]));
      reflexivity.
  - apply (proj1 (extract_odometer_thousands (detail_mileage (u "120 км") []))
             (mk_element
                [(mk_head (u "div") [u "base-information"; u "bold"] [],
                  [elem "span" [u "size18"] [] [Text (u "120 км")]; Text []])]
                (mk_head (u "span") [u "size18"] []) [Text (u "120 км")]));
      reflexivity.
Defined.

(** ** VIN *)

Lemma times_match (p : N -> bool) (n : nat) :
  forall w rest g k, length w = n -> forallb p w = true ->
    rmatch (Times n p) (w ++ rest) g k = k rest g.
Proof.
  induction n as [|n IH]; intros [|c w] rest g k Hlen Hw; try discriminate Hlen.
  - reflexivity.
  - simpl in Hw. apply andb_true_iff in Hw as [Hc Hw].
    injection Hlen as Hlen. specialize (IH w rest g k Hlen Hw).
    simpl in *. rewrite Hc. exact IH.
Qed.

Lemma times_window (p : N -> bool) (n : nat) :
  forall s g k x, rmatch (Times n p) s g k = Some x ->
    exists w rest, s = w ++ rest /\ length w = n /\ forallb p w = true.
Proof.
  induction n as [|n IH]; intros s g k x H.
  - exists [], s. repeat split.
  - destruct s as [|c s]; [discriminate H|]. simpl in H.
    destruct (p c) eqn:Hc; [|discriminate H].
    destruct (IH s g k x H) as [w [rest [-> [Hlen Hw]]]].
    exists (c :: w), rest. simpl. rewrite Hc, Hw, Hlen. repeat split.
Qed.

Lemma search_vin_token (token rest : pystr) :
  length token = 17%nat -> forallb vin_char token = true ->
  search re_vin (token ++ rest) = Some [token].
Proof.
  intros Hlen Hv.
  assert (M : match_here re_vin (token ++ rest) = Some ([], rest))
    by (unfold match_here, re_vin; now rewrite times_match).
  destruct token as [|c token]; [discriminate Hlen|].
  simpl app in *. cbn [search]. rewrite M. f_equal. f_equal.
  replace (length (c :: token ++ rest) - length rest)%nat with (length (c :: token)).
  - change (c :: token ++ rest) with ((c :: token) ++ rest). apply take_app_length.
  - simpl. rewrite length_app. lia.
Qed.

Lemma search_vin_none (s : pystr) :
  (forall a w b, s = a ++ w ++ b -> length w = 17%nat -> forallb vin_char w = false) ->
  search re_vin s = None.
Proof.
  induction s as [|c s IH]; intros Hno.
  - reflexivity.
  - cbn [search]. destruct (match_here re_vin (c :: s)) as [[g rest]|] eqn:M.
    + unfold match_here, re_vin in M.
      apply times_window in M as [w [r [E [Hlen Hw]]]].
      rewrite (Hno [] w r E Hlen) in Hw. discriminate Hw.
    + apply IH. intros a w b E. apply (Hno (c :: a) w b). now rewrite E.
Qed.

Lemma vin_char_not_space (c : N) : vin_char c = true -> is_space c = false.
Proof.
  intros H. destruct (is_space c) eqn:S; [|reflexivity]. exfalso.
  unfold vin_char in H. unfold is_space in S.
  destruct ((97 <=? c) && (c <=? 122)) eqn:Lc.
  - rewrite ?orb_true_iff, ?andb_true_iff, ?N.leb_le, ?N.eqb_eq in *. lia.
  - rewrite ?andb_false_iff, ?N.leb_gt in Lc.
    rewrite ?orb_true_iff, ?andb_true_iff, ?N.leb_le, ?N.eqb_eq in *. lia.
Qed.

Lemma vin_token_solid (token : pystr) :
  length token = 17%nat -> forallb vin_char token = true -> solid token.
Proof.
  intros Hlen Hv. split; [intros ->; discriminate Hlen|].
  rewrite forallb_forall in *. intros c Hc.
  now rewrite (vin_char_not_space c (Hv c Hc)).
Qed.



(** ** The table *)

Lemma select_car_in (x : pystr) (s : session) :
  select_car x s <> None <-> In x (map url (rows s)).
Proof.
  unfold select_car. split.
  - destruct (List.find _ (rows s)) as [c|] eqn:F; [|congruence]. intros _.
    apply find_some in F as [Hin E]. apply str_eqb_eq in E. subst x.
    now apply in_map.
  - intros Hin F. apply in_map_iff in Hin as [c [<- Hc]].
    apply (find_none _ _ F) in Hc. now rewrite str_eqb_refl in Hc.
Qed.

(** ** Processing one detail URL *)

Lemma process_car_page_logs (X : extractor) (B : browser) (car_url : pystr) (c : crawl) :
  exists o, outcomes (process_car_page X B car_url c) = outcomes c ++ [(car_url, o)].
Proof.
  unfold process_car_page.
  destruct (search re_car_id car_url); [|eexists; reflexivity].
  destruct (select_car car_url (db c)); [eexists; reflexivity|].
  destruct (negb (truthy _)); [eexists; reflexivity|].
  destruct (new_Car _); [|eexists; reflexivity].
  destruct (add_commit _ _) as [s w]. eexists; reflexivity.
Qed.

(** C3 -- Dispatching a URL that is already in the table issues no insert
    (the rows and the log of inserts are unchanged, and no page is
    fetched), and the item counter advances by one all the same.  Saving a
    record with such a URL through [save_car_data] leaves the session as
    it is. *)
Theorem known_url_no_second_insert (cfg : settings) (X : extractor) (B : browser)
    (known : pystr) (c : crawl) (tickets : Z) :
  select_car known (db c) <> None ->
  (tickets < MAX_TICKETS_PER_RUN cfg)%Z ->
  db (process_car_page X B known c) = db c
  /\ visited (process_car_page X B known c) = visited c
  /\ dispatch_items cfg X B [known] c tickets
     = (process_car_page X B known c, (tickets + 1)%Z)
  /\ (forall d, cd_url d = known -> save_car_data d (db c) = db c).
Proof.
  intros Hknown Hquota. repeat split.
  - unfold process_car_page. destruct (search re_car_id known); [|reflexivity].
    destruct (select_car known (db c)); [reflexivity|contradiction].
  - unfold process_car_page. destruct (search re_car_id known); [|reflexivity].
    destruct (select_car known (db c)); [reflexivity|contradiction].
  - cbn [dispatch_items].
    destruct (tickets >=? MAX_TICKETS_PER_RUN cfg)%Z eqn:E; [|reflexivity].
    rewrite Z.geb_leb in E. apply Z.leb_le in E. lia.
  - intros d <-. unfold save_car_data.
    destruct (select_car (cd_url d) (db c)); [reflexivity|contradiction].
Qed.

Lemma known_url_no_second_insert_witness :
  let c := mk_crawl session_with_known_car [] [] in
  db (process_car_page plain_extractor offline_browser known_car_url c) = db c
  /\ visited (process_car_page plain_extractor offline_browser known_car_url c)
     = visited c
  /\ dispatch_items small_settings plain_extractor offline_browser
       [known_car_url] c 0
     = (process_car_page plain_extractor offline_browser known_car_url c, (0 + 1)%Z)
  /\ (forall d, cd_url d = known_car_url -> save_car_data d (db c) = db c).
Proof.
  apply (known_url_no_second_insert small_settings plain_extractor offline_browser
           known_car_url (mk_crawl session_with_known_car [] []) 0).
  - discriminate.
  - reflexivity.
Defined.

(** C7, as stated, fails: the skip of a URL that is already in the table
    advances the item counter. *)
Lemma skip_advances_counter :
  outcomes (fst (dispatch_items small_settings plain_extractor offline_browser
                   [known_car_url] (mk_crawl session_with_known_car [] []) 0))
  = [(known_car_url, AlreadyExists)]
  /\ snd (dispatch_items small_settings plain_extractor offline_browser
            [known_car_url] (mk_crawl session_with_known_car [] []) 0)
     = 1%Z.
Proof. split; reflexivity. Qed.

(** C7 (amended) -- The links of a page are processed in turn until the
    ticket limit is reached, whatever the outcome of the links before
    (each outcome, a failure included, is recorded and the loop goes on),
    and the item counter advances by one for every processed link, skips
    of known URLs included.  The loop over the links of [scraper.py]
    processes every link as well. *)
Theorem dispatch_items_every_link (cfg : settings) (X : extractor) (B : browser)
    (car_links : list pystr) :
  (forall c tickets,
     let n := Z.to_nat (Z.min (Z.of_nat (length car_links))
                              (MAX_TICKETS_PER_RUN cfg - tickets)) in
     map fst (outcomes (fst (dispatch_items cfg X B car_links c tickets)))
       = map fst (outcomes c) ++ firstn n car_links
     /\ snd (dispatch_items cfg X B car_links c tickets)
        = (tickets + Z.of_nat n)%Z)
  /\ (forall H c,
        map fst (outcomes (fold_left (fun c car_url => http_process_car_page H car_url c)
                             car_links c))
        = map fst (outcomes c) ++ car_links).
Proof.
  split.
  - induction car_links as [|l rest IH]; intros c tickets n.
    + assert (n = 0%nat) as -> by (subst n; simpl length; lia).
      simpl. rewrite app_nil_r. split; [reflexivity|lia].
    + cbn [dispatch_items].
      destruct (tickets >=? MAX_TICKETS_PER_RUN cfg)%Z eqn:E.
      * rewrite Z.geb_leb in E. apply Z.leb_le in E.
        assert (n = 0%nat) as -> by (subst n; simpl length; lia).
        simpl. rewrite app_nil_r. split; [reflexivity|lia].
      * rewrite Z.geb_leb in E. apply Z.leb_gt in E.
        destruct (IH (process_car_page X B l c) (tickets + 1)%Z) as [IH1 IH2].
        destruct (process_car_page_logs X B l c) as [o Ho].
        assert (Hn : n = S (Z.to_nat (Z.min (Z.of_nat (length rest))
                                        (MAX_TICKETS_PER_RUN cfg - (tickets + 1)))))
          by (subst n; simpl length; lia).
        rewrite Hn. split.
        -- rewrite IH1, Ho, map_app, <- app_assoc. reflexivity.
        -- rewrite IH2. lia.
  - intros H. induction car_links as [|l rest IH]; intros c.
    + simpl. now rewrite app_nil_r.
    + cbn [fold_left]. rewrite IH. unfold http_process_car_page. simpl.
      rewrite map_app, <- app_assoc. reflexivity.
Qed.

(** ** The loops over the pages *)

(** The loops end by their own conditions: the fuel they are started
    with is never used up. *)
Lemma crawl_pages_fuel (cfg : settings) (L : lib) (X : extractor) (B : browser)
    (fuel : nat) :
  forall r, (MAX_PAGES cfg - processed_pages r <= Z.of_nat fuel)%Z ->
    snd (crawl_pages fuel cfg L X B r) <> OutOfFuel.
Proof.
  induction fuel as [|fuel IH]; intros r Hfuel; cbn [crawl_pages];
    destruct ((processed_pages r <? MAX_PAGES cfg)%Z) eqn:Ep;
    cbn [andb negb]; try discriminate.
  - apply Z.ltb_lt in Ep. lia.
  - destruct ((processed_tickets r <? MAX_TICKETS_PER_RUN cfg)%Z);
      cbn [negb]; try discriminate.
    destruct (negb (truthy _)); [discriminate|].
    destruct (parse_car_listing_page_enhanced L _); [discriminate|].
    destruct (dispatch_items _ _ _ _ _ _) as [c tickets].
    destruct (browser_next_page_url B (visited c) (current_url r)) as [next|];
      [|discriminate].
    destruct (truthy next); [|discriminate].
    apply IH. cbn [processed_pages]. apply Z.ltb_lt in Ep. lia.
Qed.

Lemma run_enhanced_playwright_scraper_ends (cfg : settings) (L : lib)
    (X : extractor) (B : browser) (s : session) :
  snd (run_enhanced_playwright_scraper cfg L X B s) <> OutOfFuel.
Proof. apply crawl_pages_fuel. cbn [processed_pages]. lia. Qed.

Lemma http_crawl_pages_fuel (cfg : settings) (L : lib) (H : http_client)
    (max_pages : Z) (fuel : nat) :
  forall r, (max_pages - page_count r <= Z.of_nat fuel)%Z ->
    snd (http_crawl_pages fuel cfg L H max_pages r) <> OutOfFuel.
Proof.
  induction fuel as [|fuel IH]; intros r Hfuel; cbn [http_crawl_pages];
    destruct (truthy (current_page_url r)); cbn [andb negb]; try discriminate;
    destruct ((page_count r <? max_pages)%Z) eqn:Ep; cbn [negb]; try discriminate.
  - apply Z.ltb_lt in Ep. lia.
  - destruct (process_listing_page _ _ _ _ _) as [c [next|]]; [|discriminate].
    destruct (negb (truthy next)); [discriminate|].
    destruct (str_eqb next (current_page_url r)); [discriminate|].
    apply IH. cbn [page_count]. apply Z.ltb_lt in Ep. lia.
Qed.

Lemma no_refetch_init (l : list pystr) (x : pystr) :
  no_refetch (l ++ [x]) -> no_refetch l.
Proof.
  induction l as [|a l IH]; [simpl; tauto|].
  destruct l as [|b l]; [simpl; tauto|].
  intros Hr.
  change (a <> b /\ no_refetch ((b :: l) ++ [x])) in Hr.
  change (a <> b /\ no_refetch (b :: l)).
  split; [apply Hr|]. apply IH, Hr.
Qed.

Lemma no_refetch_snoc (l : list pystr) (x y : pystr) :
  no_refetch (l ++ [x]) -> x <> y -> no_refetch ((l ++ [x]) ++ [y]).
Proof.
  intros Hl Hxy. induction l as [|a l IH]; [simpl; tauto|].
  destruct l as [|b l].
  - simpl in *. tauto.
  - change (a <> b /\ no_refetch ((b :: l) ++ [x])) in Hl.
    change (a <> b /\ no_refetch (((b :: l) ++ [x]) ++ [y])).
    split; [apply Hl|]. apply IH, Hl.
Qed.

(** The cycle guard of [run_scraper]: a page is never fetched again as
    its own next page. *)
Lemma http_crawl_pages_no_refetch (cfg : settings) (L : lib) (H : http_client)
    (max_pages : Z) (fuel : nat) :
  forall r, no_refetch (http_listing_fetches r ++ [current_page_url r]) ->
    no_refetch (http_listing_fetches (fst (http_crawl_pages fuel cfg L H max_pages r))).
Proof.
  induction fuel as [|fuel IH]; intros r Hr; cbn [http_crawl_pages];
    destruct (negb _); cbn [fst http_listing_fetches];
    try (now apply no_refetch_init in Hr).
  destruct (process_listing_page _ _ _ _ _) as [c [next|]]; [|exact Hr].
  destruct (negb (truthy next)); [exact Hr|].
  destruct (str_eqb next (current_page_url r)) eqn:E; [exact Hr|].
  apply IH. cbn [http_listing_fetches current_page_url].
  apply no_refetch_snoc; [exact Hr|]. apply str_eqb_neq in E. congruence.
Qed.

Lemma run_scraper_no_refetch (cfg : settings) (L : lib) (H : http_client)
    (s : session) :
  no_refetch (http_listing_fetches (fst (run_scraper cfg L H s))).
Proof. apply http_crawl_pages_no_refetch. simpl. exact I. Qed.


(** ** Mock data *)

Lemma add_commit_new (car : Car) (s : session) :
  consistent s -> select_car (url car) s = None ->
  consistent (fst (add_commit car s)) /\ snd (add_commit car s) = true
  /\ rows (fst (add_commit car s)) = rows s ++ [car].
Proof.
  intros [Hnd Hins] Hnew. unfold add_commit, consistent. rewrite Hnew.
  cbn [fst snd rows inserts]. rewrite map_app, Hins.
  split; [split; [|reflexivity]|split; reflexivity].
  apply NoDup_app. split; [exact Hnd|]. split; [|apply NoDup_singleton].
  intros x Hx Hx'. apply list_elem_of_In in Hx, Hx'.
  destruct Hx' as [<-|[]]. apply select_car_in in Hx. contradiction.
Qed.

Lemma insert_if_new_spec (d : car_data) (s : session) :
  consistent s ->
  consistent (fst (insert_if_new d s))
  /\ In (cd_url d) (map url (rows (fst (insert_if_new d s))))
  /\ (forall x, In x (map url (rows s)) ->
                In x (map url (rows (fst (insert_if_new d s))))).
Proof.
  intros Hs. unfold insert_if_new.
  destruct (select_car (cd_url d) s) as [c|] eqn:E.
  - cbn [fst]. repeat split; [apply Hs|apply Hs| |tauto].
    apply select_car_in. congruence.
  - destruct (add_commit_new (mk_Car (cd_url d) (cd_fields d)) s Hs E)
      as [Hc [_ Hrows]].
    split; [exact Hc|]. rewrite Hrows, map_app. split.
    + apply in_or_app. right. left. reflexivity.
    + intros x Hx. apply in_or_app. now left.
Qed.

Lemma insert_if_new_known (d : car_data) (s : session) :
  In (cd_url d) (map url (rows s)) -> insert_if_new d s = (s, false).
Proof.
  intros Hin. apply select_car_in in Hin. unfold insert_if_new.
  destruct (select_car (cd_url d) s); [reflexivity|contradiction].
Qed.

Lemma save_extracted_spec (detail : option car_data) (cars : list car_data) :
  forall s n, consistent s ->
    consistent (fst (save_extracted detail cars s n))
    /\ (forall x, In x (map url (rows s)) ->
                  In x (map url (rows (fst (save_extracted detail cars s n)))))
    /\ (forall d, In d cars ->
          passed_over detail d = true
          \/ In (cd_url d) (map url (rows (fst (save_extracted detail cars s n))))).
Proof.
  induction cars as [|d rest IH]; intros s n Hs.
  - simpl. repeat split; [apply Hs|apply Hs|tauto|intros d []].
  - cbn [save_extracted].
    assert (Skip : passed_over detail d = true ->
              consistent (fst (save_extracted detail rest s n))
              /\ (forall x, In x (map url (rows s)) ->
                    In x (map url (rows (fst (save_extracted detail rest s n)))))
              /\ (forall d', In d' (d :: rest) ->
                    passed_over detail d' = true
                    \/ In (cd_url d')
                         (map url (rows (fst (save_extracted detail rest s n)))))).
    { intros Hp. destruct (IH s n Hs) as [H1 [H2 H3]].
      split; [exact H1|]. split; [exact H2|].
      intros d' [<-|Hd']; [now left|now apply H3]. }
    unfold passed_over in Skip.
    destruct (match detail with Some x => car_data_eqb d x | None => false end);
      [now apply Skip|].
    destruct (negb (truthy (cd_url d))); [now apply Skip|]. clear Skip.
    destruct (insert_if_new_spec d s Hs) as [Hc [Hin Hmono]].
    destruct (insert_if_new d s) as [s' w]. cbn [fst] in *.
    destruct (IH s' (if w then (n + 1) else n) Hc) as [H1 [H2 H3]].
    split; [exact H1|]. split; [intros x Hx; apply H2, Hmono, Hx|].
    intros d' [<-|Hd']; [right; apply H2, Hin|now apply H3].
Qed.

Lemma save_extracted_noop (detail : option car_data) (cars : list car_data)
    (s : session) (n : N) :
  (forall d, In d cars ->
     passed_over detail d = true \/ In (cd_url d) (map url (rows s))) ->
  save_extracted detail cars s n = (s, n).
Proof.
  induction cars as [|d rest IH]; intros Hall; [reflexivity|].
  cbn [save_extracted].
  assert (Hrest : save_extracted detail rest s n = (s, n))
    by (apply IH; intros d' Hd'; apply Hall; now right).
  destruct (Hall d (or_introl eq_refl)) as [Hp|Hin].
  - unfold passed_over in Hp.
    destruct (match detail with Some x => car_data_eqb d x | None => false end);
      [exact Hrest|].
    simpl in Hp. rewrite Hp. exact Hrest.
  - destruct (match detail with Some x => car_data_eqb d x | None => false end);
      [exact Hrest|].
    destruct (negb (truthy (cd_url d))); [exact Hrest|].
    rewrite (insert_if_new_known d s Hin). exact Hrest.
Qed.

Lemma mock_item_cars_clock (L : lib) (X : extractor) (ts1 ts2 : N)
    (items : list element) :
  ts1 = ts2 \/ List.Forall (fun item => item_link item <> None) items ->
  forall idx, mock_item_cars L X ts1 idx items = mock_item_cars L X ts2 idx items.
Proof.
  intros [->|Hall]; [reflexivity|].
  induction Hall as [|item rest Hitem _ IH]; intros idx; [reflexivity|].
  cbn [mock_item_cars]. rewrite IH. f_equal.
  unfold mock_item_car, mock_item_url.
  destruct (item_link item); [reflexivity|contradiction].
Qed.




(** ** Listing pages *)

Lemma in_append_new (l : list pystr) (y x : pystr) :
  In x (append_new l y) <-> In x l \/ x = y.
Proof.
  unfold append_new. destruct (existsb (str_eqb y) l) eqn:E.
  - apply existsb_str_eqb in E. split; [tauto|]. intros [H| ->]; assumption.
  - rewrite in_app_iff. simpl. intuition.
Qed.

Lemma in_add_car_url (L : lib) (l : list pystr) (e : element) (x : pystr) :
  In x (add_car_url L l (find_car_url e)) <-> In x l \/ contributes L e x.
Proof.
  unfold add_car_url, contributes. destruct (find_car_url e) as [raw|].
  - destruct (truthy raw) eqn:T.
    + rewrite in_append_new. split.
      * intros [H|H]; [now left|right; now exists raw].
      * intros [H|[r [[= <-] [_ ->]]]]; [now left|now right].
    + split; [tauto|]. intros [H|[r [[= <-] [T' _]]]]; [assumption|congruence].
  - split; [tauto|]. intros [H|[r [[=] _]]]. assumption.
Qed.

Lemma in_scan_elements (L : lib) (es : list element) :
  forall l x,
    In x (fold_left (fun car_links element =>
                       add_car_url L car_links (find_car_url element)) es l)
    <-> In x l \/ exists e, In e es /\ contributes L e x.
Proof.
  induction es as [|e es IH]; intros l x; cbn [fold_left].
  - split; [tauto|]. intros [H|[e [[] _]]]. assumption.
  - rewrite IH, in_add_car_url. split.
    + intros [[H|H]|[e' [He' H]]].
      * now left.
      * right. exists e. split; [now left|assumption].
      * right. exists e'. split; [now right|assumption].
    + intros [H|[e' [[<-|He'] H]]].
      * left. now left.
      * left. now right.
      * right. now exists e'.
Qed.

Lemma in_scan_selectors_from (L : lib) (doc : soup) (sels : list selector) :
  forall l x,
    In x (fold_left
            (fun car_links selector =>
               fold_left (fun car_links element =>
                            add_car_url L car_links (find_car_url element))
                 (soup_select selector doc) car_links) sels l)
    <-> In x l \/ exists sel e, In sel sels /\ In e (soup_select sel doc)
                                /\ contributes L e x.
Proof.
  induction sels as [|sel sels IH]; intros l x; cbn [fold_left].
  - split; [tauto|]. intros [H|[sel [e [[] _]]]]. assumption.
  - rewrite IH, in_scan_elements. split.
    + intros [[H|[e [He H]]]|[sel' [e [Hs [He H]]]]].
      * now left.
      * right. exists sel, e. split; [now left|]. now split.
      * right. exists sel', e. split; [now right|]. now split.
    + intros [H|[sel' [e [[<-|Hs] [He H]]]]].
      * left. now left.
      * left. right. now exists e.
      * right. exists sel', e. now repeat split.
Qed.

Lemma in_scan_selectors (L : lib) (sels : list selector) (doc : soup) (x : pystr) :
  In x (scan_selectors L sels doc)
  <-> exists sel e, In sel sels /\ In e (soup_select sel doc) /\ contributes L e x.
Proof.
  unfold scan_selectors. rewrite in_scan_selectors_from. split; [|now right].
  intros [[]|H]. exact H.
Qed.

Lemma in_scan_pattern (L : lib) (html : pystr) (l : list pystr) (x : pystr) :
  In x (scan_pattern L html l)
  <-> (l <> [] /\ In x l)
      \/ (l = [] /\ exists link, In link (findall re_auto_link html)
                                 /\ x = absolute_url L link).
Proof.
  unfold scan_pattern. destruct l as [|y l].
  - assert (G : forall links acc,
               In x (fold_left (fun car_links link =>
                                  append_new car_links (absolute_url L link))
                       links acc)
               <-> In x acc \/ exists link, In link links /\ x = absolute_url L link).
    { induction links as [|k links IH]; intros acc; cbn [fold_left].
      - split; [tauto|]. intros [H|[k [[] _]]]. assumption.
      - rewrite IH, in_append_new. split.
        + intros [[H|H]|[k' [Hk' H]]]; [now left| |].
          * right. exists k. split; [now left|assumption].
          * right. exists k'. split; [now right|assumption].
        + intros [H|[k' [[<-|Hk'] H]]]; [left; now left|left; now right|].
          right. now exists k'. }
    rewrite G. split.
    + intros [[]|H]. right. now split.
    + intros [[H _]|[_ H]]; [congruence|now right].
  - split.
    + intros H. left. split; [discriminate|assumption].
    + intros [[_ H]|[H _]]; [assumption|discriminate].
Qed.

Lemma in_list_of_set (l : list pystr) (x : pystr) : In x (list_of_set l) <-> In x l.
Proof.
  unfold list_of_set. rewrite <- !list_elem_of_In, elem_of_elements.
  apply elem_of_list_to_set.
Qed.

Lemma NoDup_list_of_set (l : list pystr) : NoDup (list_of_set l).
Proof. unfold list_of_set. apply NoDup_elements. Qed.

Lemma in_selector_links (L : lib) (sels : list selector) (html : pystr) (x : pystr) :
  In x (list_of_set (scan_pattern L html (scan_selectors L sels (BeautifulSoup L html))))
  <-> (exists sel e, In sel sels
                     /\ In e (soup_select sel (BeautifulSoup L html))
                     /\ contributes L e x)
      \/ (scan_selectors L sels (BeautifulSoup L html) = []
          /\ exists link, In link (findall re_auto_link html)
                          /\ x = absolute_url L link).
Proof.
  rewrite in_list_of_set, in_scan_pattern. split.
  - intros [[_ H]|H]; [left; now apply in_scan_selectors|now right].
  - intros [H|H]; [|now right]. left.
    apply in_scan_selectors in H. split; [|exact H]. intros E.
    rewrite E in H. destruct H.
Qed.

(** C4, as stated, fails: on a page that mixes two layouts the first
    selector matches and contributes its link, and the link of the item
    that only the third selector matches is returned as well. *)
Lemma later_selector_contributes :
  soup_select item_block_selector mixed_page <> []
  /\ scan_selectors (page_lib mixed_page) [item_block_selector] mixed_page
     = [u "https://auto.ria.com/uk/auto_bmw_x5_1.html"]
  /\ In (u "https://auto.ria.com/uk/auto_audi_a4_2.html")
        (parse_car_listing_page (page_lib mixed_page) listing_text)
  /\ In (u "https://auto.ria.com/uk/auto_audi_a4_2.html")
        (parse_car_listing_page_enhanced (page_lib mixed_page) listing_text).
Proof.
  split; [discriminate|]. split; [reflexivity|].
  split; apply (proj1 (existsb_str_eqb _ _)); vm_compute; reflexivity.
Qed.

(** C4 (amended) -- The extractor evaluates every selector of its list, in
    order, and returns the links of the elements of all of them, also
    when an earlier selector has matched; the pattern scan of the raw
    text contributes only when the selectors gave no link.  The same holds
    for the extractor of the browser crawl on a text that is not empty
    and has no anti-bot marker. *)
Theorem every_selector_contributes (L : lib) (html : pystr) (x : pystr) :
  (In x (parse_car_listing_page L html)
   <-> (exists sel e, In sel selectors_to_try
                      /\ In e (soup_select sel (BeautifulSoup L html))
                      /\ contributes L e x)
       \/ (scan_selectors L selectors_to_try (BeautifulSoup L html) = []
           /\ exists link, In link (findall re_auto_link html)
                           /\ x = absolute_url L link))
  /\ (truthy html = true -> anti_bot_marker html = false ->
      (In x (parse_car_listing_page_enhanced L html)
       <-> (exists sel e, In sel selectors_to_try_enhanced
                          /\ In e (soup_select sel (BeautifulSoup L html))
                          /\ contributes L e x)
           \/ (scan_selectors L selectors_to_try_enhanced (BeautifulSoup L html) = []
               /\ exists link, In link (findall re_auto_link html)
                               /\ x = absolute_url L link))).
Proof.
  split.
  - apply in_selector_links.
  - intros Ht Hm. unfold parse_car_listing_page_enhanced. rewrite Ht, Hm.
    cbn [negb]. cbv zeta. apply in_selector_links.
Qed.

Lemma every_selector_contributes_witness :
  In (u "https://auto.ria.com/uk/auto_audi_a4_2.html")
     (parse_car_listing_page_enhanced (page_lib mixed_page) listing_text)
  <-> (exists sel e, In sel selectors_to_try_enhanced
                     /\ In e (soup_select sel
                                (BeautifulSoup (page_lib mixed_page) listing_text))
                     /\ contributes (page_lib mixed_page) e
                          (u "https://auto.ria.com/uk/auto_audi_a4_2.html"))
      \/ (scan_selectors (page_lib mixed_page) selectors_to_try_enhanced
            (BeautifulSoup (page_lib mixed_page) listing_text) = []
          /\ exists link, In link (findall re_auto_link listing_text)
                          /\ u "https://auto.ria.com/uk/auto_audi_a4_2.html"
                             = absolute_url (page_lib mixed_page) link).
Proof.
  apply (proj2 (every_selector_contributes (page_lib mixed_page) listing_text
                  (u "https://auto.ria.com/uk/auto_audi_a4_2.html")));
    reflexivity.
Defined.

(** *** Item blocks *)

Lemma elements_of_descendants (n : node) :
  forall anc e d, In e (elements_of anc n) -> In d (descendants e) ->
    In d (elements_of anc n).
Proof.
  induction n as [s|h cs IH] using node_forall_ind; intros anc e d He Hd.
  - destruct He.
  - simpl in He. destruct He as [<-|He].
    + right. exact Hd.
    + right. apply in_flat_map in He as [child [Hchild He]].
      rewrite List.Forall_forall in IH. apply in_flat_map. exists child.
      split; [exact Hchild|]. now apply (IH child Hchild _ e).
Qed.

Lemma soup_elements_descendants (doc : soup) (e d : element) :
  In e (soup_elements doc) -> In d (descendants e) -> In d (soup_elements doc).
Proof.
  intros He Hd. apply in_flat_map in He as [n [Hn He]].
  apply in_flat_map. exists n. split; [exact Hn|].
  now apply (elements_of_descendants n [] e).
Qed.

Lemma select_one_in (sel : selector) (e d : element) :
  select_one sel e = Some d ->
  In d (descendants e) /\ selector_matches sel d = true.
Proof. intros H. now apply find_some in H. Qed.

Lemma selector_single (c : compound) (e : element) :
  selector_matches [[c]] e = compound_matches c (el_head e).
Proof.
  unfold selector_matches, complex_matches. cbn [existsb ancestors_match].
  now rewrite andb_true_r, orb_false_r.
Qed.

Lemma selector_subject (c : compound) (above : list compound) (e : element) :
  selector_matches [c :: above] e = true ->
  compound_matches c (el_head e) = true.
Proof.
  unfold selector_matches, complex_matches. cbn [existsb].
  rewrite orb_false_r. now intros [H _]%andb_true_iff.
Qed.

Lemma compound_matches_name (c : compound) (h : tag_head) (t : pystr) :
  c_name c = Some t -> compound_matches c h = true -> name h = t.
Proof.
  unfold compound_matches. intros ->. rewrite !andb_true_iff.
  intros [[H _] _]. apply str_eqb_eq in H. now symmetry.
Qed.

Lemma matches_anchor (e : element) :
  selector_matches [[tag "a"]] e = str_eqb (u "a") (name (el_head e)).
Proof.
  rewrite selector_single. unfold compound_matches.
  cbn [c_name c_classes c_attrs tag forallb]. now rewrite !andb_true_r.
Qed.

Lemma matches_anchor_auto (e : element) :
  selector_matches [[attr_sub "href" "auto_" (tag "a")]] e
  = selector_matches [[tag "a"]] e
    && opt_contains (u "auto_") (get (el_head e) (u "href")).
Proof.
  rewrite !selector_single. unfold compound_matches, opt_contains.
  cbn [c_name c_classes c_attrs tag attr_sub forallb app attr_holds].
  now rewrite !andb_true_r.
Qed.

Lemma matches_address (e : element) :
  selector_matches [[cls "address" (tag "a")]] e = true ->
  name (el_head e) = u "a".
Proof.
  intros H. apply selector_subject in H.
  now apply (compound_matches_name _ _ (u "a")) in H.
Qed.

Lemma matches_photo_link (e : element) :
  selector_matches [[tag "a"; cls "ticket-photo" any_tag]] e = true ->
  name (el_head e) = u "a".
Proof.
  intros H. apply selector_subject in H.
  now apply (compound_matches_name _ _ (u "a")) in H.
Qed.

Lemma matches_data_link (e : element) :
  selector_matches [[has_attr "data-link-to-view" any_tag]] e = true ->
  get (el_head e) (u "data-link-to-view") <> None.
Proof.
  rewrite selector_single. unfold compound_matches.
  cbn [c_name c_classes c_attrs has_attr any_tag forallb app attr_holds andb].
  intros H E. rewrite E in H. discriminate H.
Qed.

Lemma matches_item_block (e : element) :
  selector_matches item_block_selector e = true ->
  name (el_head e) = u "section".
Proof.
  intros H. apply selector_subject in H.
  now apply (compound_matches_name _ _ (u "section")) in H.
Qed.

Lemma find_single {A : Type} (P Q f : A -> bool) (xs : list A) (l : A) :
  (forall x, f x = P x && Q x) ->
  List.filter P xs = [l] -> Q l = true -> List.find f xs = Some l.
Proof.
  intros Hf HP HQ. induction xs as [|x xs IH]; [discriminate HP|].
  simpl in *. rewrite Hf. destruct (P x) eqn:Px.
  - injection HP as -> _. now rewrite HQ.
  - now apply IH.
Qed.

Lemma map_some_in {A : Type} (f : A -> option pystr) (bs : list A)
    (hs : list pystr) :
  map f bs = map Some hs ->
  (forall b, In b bs -> exists h, In h hs /\ f b = Some h)
  /\ (forall h, In h hs -> exists b, In b bs /\ f b = Some h).
Proof.
  revert hs. induction bs as [|b bs IH]; intros [|h hs] E; try discriminate E.
  - split; intros ? [].
  - injection E as Eb E. destruct (IH hs E) as [I1 I2]. split.
    + intros b' [<-|Hb'].
      * exists h. split; [now left|exact Eb].
      * destruct (I1 b' Hb') as [h' [Hh' E']]. exists h'. split; [now right|exact E'].
    + intros h' [<-|Hh'].
      * exists b. split; [now left|exact Eb].
      * destruct (I2 h' Hh') as [b' [Hb' E']]. exists b'. split; [now right|exact E'].
Qed.

Lemma block_link_some (b : element) (h : pystr) :
  block_link b = Some h ->
  exists l, select [[tag "a"]] b = [l] /\ get (el_head l) (u "href") = Some h
            /\ contains (u "auto_") h = true.
Proof.
  unfold block_link. destruct (select [[tag "a"]] b) as [|l [|? ?]]; try discriminate.
  destruct (get (el_head l) (u "href")) as [h'|] eqn:G; [|discriminate].
  destruct (contains (u "auto_") h') eqn:C; [|discriminate].
  intros [= <-]. exists l. split; [reflexivity|]. split; [exact G|exact C].
Qed.

Lemma nonempty_in {A : Type} (l : list A) : l <> [] -> exists x, In x l.
Proof. destruct l as [|x l]; [contradiction|]. intros _. exists x. now left. Qed.

Section Blocks.

Variable L : lib.
Variable doc : soup.
Variable hrefs : list pystr.

Hypothesis Hblocks :
  map block_link (soup_select item_block_selector doc) = map Some hrefs.
Hypothesis Hanchors :
  forall a, In a (soup_elements doc) -> name (el_head a) = u "a" ->
    exists b, In b (soup_select item_block_selector doc) /\ In a (descendants b).
Hypothesis Hdata :
  forall e, In e (soup_elements doc) ->
    get (el_head e) (u "data-link-to-view") = None.

(** Every anchor of the page is the link of a block. *)
Lemma anchor_href (a : element) :
  In a (soup_elements doc) -> name (el_head a) = u "a" ->
  exists h, In h hrefs /\ get (el_head a) (u "href") = Some h.
Proof.
  intros Ha Hn. destruct (Hanchors a Ha Hn) as [b [Hb Hab]].
  destruct (proj1 (map_some_in _ _ _ Hblocks) b Hb) as [h [Hh Eb]].
  apply block_link_some in Eb as [l [Hsel [Hl _]]].
  assert (Hin : In a (select [[tag "a"]] b)).
  { apply filter_In. split; [exact Hab|]. rewrite matches_anchor, Hn.
    apply str_eqb_refl. }
  rewrite Hsel in Hin. destruct Hin as [<-|[]]. now exists h.
Qed.

Lemma find_car_url_sound (e : element) (raw : pystr) :
  In e (soup_elements doc) -> find_car_url e = Some raw -> In raw hrefs.
Proof.
  intros He. unfold find_car_url.
  assert (Inner : forall sel d,
            select_one sel e = Some d -> name (el_head d) = u "a" ->
            get (el_head d) (u "href") = Some raw -> In raw hrefs).
  { intros sel d Hd Hn Hr. apply select_one_in in Hd as [Hd _].
    destruct (anchor_href d (soup_elements_descendants doc e d He Hd) Hn)
      as [h [Hh E]]. congruence. }
  destruct (str_eqb (name (el_head e)) (u "a") && _ && _) eqn:C.
  - apply andb_true_iff in C as [C _]. apply andb_true_iff in C as [C _].
    apply str_eqb_eq in C. destruct (anchor_href e He C) as [h [Hh E]].
    intros Hr. congruence.
  - destruct (select_one [[attr_sub "href" "auto_" (tag "a")]] e) as [l|] eqn:S1.
    { intros Hr. apply (Inner _ l S1); [|exact Hr].
      apply select_one_in in S1 as [_ M]. rewrite matches_anchor_auto in M.
      apply andb_true_iff in M as [M _]. rewrite matches_anchor in M.
      apply str_eqb_eq in M. now symmetry. }
    destruct (select_one [[has_attr "data-link-to-view" any_tag]] e) as [d|] eqn:S2.
    { apply select_one_in in S2 as [Hd M]. apply matches_data_link in M.
      rewrite (Hdata d (soup_elements_descendants doc e d He Hd)) in M.
      contradiction. }
    destruct (select_one [[cls "address" (tag "a")]] e) as [l|] eqn:S3.
    { intros Hr. apply (Inner _ l S3); [|exact Hr].
      apply select_one_in in S3 as [_ M]. now apply matches_address. }
    destruct (select_one [[tag "a"; cls "ticket-photo" any_tag]] e) as [l|] eqn:S4.
    { intros Hr. apply (Inner _ l S4); [|exact Hr].
      apply select_one_in in S4 as [_ M]. now apply matches_photo_link. }
    discriminate.
Qed.

Lemma block_contributes (h : pystr) :
  In h hrefs ->
  exists b, In b (soup_select item_block_selector doc)
            /\ contributes L b (absolute_url L h).
Proof.
  intros Hh. destruct (proj2 (map_some_in _ _ _ Hblocks) h Hh) as [b [Hb Eb]].
  exists b. split; [exact Hb|].
  apply block_link_some in Eb as [l [Hsel [Hl Hc]]].
  exists h. split; [|split; [|reflexivity]].
  - unfold find_car_url.
    apply filter_In in Hb as [_ Mb]. apply matches_item_block in Mb.
    rewrite Mb. cbn [andb].
    change (str_eqb (u "section") (u "a")) with false. cbn [andb].
    assert (F : select_one [[attr_sub "href" "auto_" (tag "a")]] b = Some l).
    { unfold select_one.
      apply (find_single (selector_matches [[tag "a"]])
               (fun x => opt_contains (u "auto_") (get (el_head x) (u "href"))));
        [intros x; apply matches_anchor_auto|exact Hsel|].
      rewrite Hl. exact Hc. }
    rewrite F. exact Hl.
  - destruct h; [discriminate Hc|reflexivity].
Qed.

Lemma in_parse_blocks (html : pystr) (x : pystr) :
  BeautifulSoup L html = doc ->
  hrefs <> [] \/ findall re_auto_link html = [] ->
  In x (parse_car_listing_page L html) <-> In x (map (absolute_url L) hrefs).
Proof.
  intros Hdoc Hscan. unfold parse_car_listing_page. cbv zeta.
  rewrite in_selector_links, Hdoc. split.
  - intros [[sel [e [_ [He [raw [Hraw [_ ->]]]]]]]|[Hnone [link [Hlink _]]]].
    + apply in_map. apply filter_In in He as [He _].
      now apply (find_car_url_sound e).
    + destruct Hscan as [Hne|Hnil]; [|rewrite Hnil in Hlink; destruct Hlink].
      destruct (nonempty_in hrefs Hne) as [h Hh].
      destruct (block_contributes h Hh) as [b [Hb Hc]].
      assert (Hin : In (absolute_url L h)
                      (scan_selectors L selectors_to_try doc)).
      { apply in_scan_selectors. exists item_block_selector, b.
        split; [now left|]. now split. }
      rewrite Hnone in Hin. destruct Hin.
  - intros Hx. apply in_map_iff in Hx as [h [<- Hh]]. left.
    destruct (block_contributes h Hh) as [b [Hb Hc]].
    exists item_block_selector, b. split; [now left|]. now split.
Qed.

End Blocks.




(** * Further properties *)

(** ** Phone numbers: normal forms *)

Lemma strip_non_phone_id (s : pystr) :
  forallb digit_or_plus s = true -> strip_non_phone s = s.
Proof.
  unfold strip_non_phone. induction s as [|c s IH]; [reflexivity|].
  simpl. intros [Hc Hs]%andb_true_iff. rewrite Hc, IH by exact Hs. reflexivity.
Qed.

(** A text of digits and plus signs that starts with [+38] is left as it
    is. *)
Lemma format_phone_number_fixed (r : pystr) :
  forallb digit_or_plus r = true -> startswith (u "+38") r = true ->
  format_phone_number r = r.
Proof.
  intros Hall Hpre. unfold format_phone_number.
  rewrite (strip_non_phone_id r Hall).
  destruct r as [|a r]; [discriminate Hpre|].
  change (startswith (u "+38") (a :: r))
    with ((43 =? a) && startswith (u "38") r) in Hpre.
  pose proof Hpre as [Ha _]%andb_true_iff. apply N.eqb_eq in Ha. subst a.
  change (startswith (u "+") (43 :: r)) with true. cbn [truthy andb negb].
  change (startswith (u "+38") (43 :: r)) with ((43 =? 43) && startswith (u "38") r).
  rewrite Hpre. reflexivity.
Qed.

Lemma format_phone_number_normal (s : pystr) :
  strip_non_phone s <> [] ->
  startswith (u "+38") (format_phone_number s) = true
  /\ forallb digit_or_plus (format_phone_number s) = true.
Proof.
  intros Hne. unfold format_phone_number.
  pose proof (strip_non_phone_all s) as Hall.
  destruct (strip_non_phone s) as [|c k] eqn:Ek; [contradiction|].
  simpl in Hall. apply andb_true_iff in Hall as [Hc Hk].
  change (truthy (c :: k)) with true.
  change (startswith (u "+") (c :: k)) with ((43 =? c) && true).
  rewrite andb_true_r. cbn [andb].
  destruct (43 =? c) eqn:Ec; cbn [negb].
  - apply N.eqb_eq in Ec. subst c.
    destruct (country_code_shape k Hk) as [S1 [S2 _]]. now split.
  - assert (Hck : forallb digit_or_plus (c :: k) = true)
      by (simpl; now rewrite Hc, Hk).
    destruct (country_code_shape (c :: k) Hck) as [S1 [S2 _]].
    change (u "+" ++ c :: k) with (plus_sign :: c :: k). now split.
Qed.

(** X1 -- Normalizing a phone number twice gives the same as normalizing
    it once: a normalized number is a fixed point. *)
Theorem format_phone_number_idempotent (s : pystr) :
  format_phone_number (format_phone_number s) = format_phone_number s.
Proof.
  destruct (strip_non_phone s) as [|c k] eqn:E.
  - assert (F : format_phone_number s = [])
      by (unfold format_phone_number; rewrite E; reflexivity).
    rewrite F. reflexivity.
  - destruct (format_phone_number_normal s) as [H1 H2]; [congruence|].
    now apply format_phone_number_fixed.
Qed.

(** ** Saving: lookups after a save *)

Lemma find_snoc {A : Type} (f : A -> bool) (l : list A) (x : A) :
  List.find f (l ++ [x])
  = match List.find f l with
    | Some y => Some y
    | None => if f x then Some x else None
    end.
Proof.
  induction l as [|y l IH]; simpl; [reflexivity|].
  destruct (f y); [reflexivity|exact IH].
Qed.

Lemma select_car_add_commit (car : Car) (s : session) (x : pystr) :
  select_car x (fst (add_commit car s))
  = match select_car x s with
    | Some c => Some c
    | None =>
        match select_car (url car) s with
        | Some _ => None
        | None => if str_eqb (url car) x then Some car else None
        end
    end.
Proof.
  unfold add_commit. destruct (select_car (url car) s) as [c0|] eqn:E; cbn [fst].
  - unfold select_car at 1. cbn [rows]. fold (select_car x s).
    now destruct (select_car x s).
  - unfold select_car at 1. cbn [rows]. rewrite find_snoc. reflexivity.
Qed.



(** ** Processing a detail URL: what it leaves alone *)

Lemma lit_prefix (p : pystr) :
  forall s g k x, rmatch (lit p) s g k = Some x -> startswith p s = true.
Proof.
  induction p as [|a p IH]; intros s g k x H; [reflexivity|].
  destruct s as [|b s]; [discriminate H|]. simpl in H.
  destruct (a =? b) eqn:E; [|discriminate H].
  simpl. rewrite E. simpl. exact (IH s g k x H).
Qed.

Lemma search_car_id_auto (car_url : pystr) :
  search re_car_id car_url <> None -> contains (u "auto_") car_url = true.
Proof.
  induction car_url as [|c s IH]; intros H.
  - exfalso. apply H. reflexivity.
  - cbn [search] in H.
    assert (U : contains (u "auto_") (c :: s)
                = startswith (u "auto_") (c :: s) || contains (u "auto_") s)
      by reflexivity.
    rewrite U.
    destruct (match_here re_car_id (c :: s)) as [[g rest]|] eqn:M.
    + unfold match_here, re_car_id in M. cbn [rmatch] in M.
      apply lit_prefix in M. rewrite M. reflexivity.
    + rewrite (IH H). apply orb_true_r.
Qed.

(** X3 -- A link that does not contain [auto_] has no car identifier:
    [process_car_page] records it and does nothing else, no page is
    fetched and the session is not touched. *)
Theorem process_car_page_without_id (X : extractor) (B : browser)
    (car_url : pystr) (c : crawl) :
  contains (u "auto_") car_url = false ->
  process_car_page X B car_url c
  = mk_crawl (db c) (visited c) (outcomes c ++ [(car_url, NoCarId)]).
Proof.
  intros H. unfold process_car_page.
  destruct (search re_car_id car_url) as [m|] eqn:S; [|reflexivity].
  assert (C : contains (u "auto_") car_url = true)
    by (apply search_car_id_auto; congruence).
  congruence.
Qed.

Lemma process_car_page_without_id_witness :
  process_car_page plain_extractor last_page_browser
    (u "https://auto.ria.com/uk/news/1.html") (mk_crawl empty_session [] [])
  = mk_crawl empty_session [] [(u "https://auto.ria.com/uk/news/1.html", NoCarId)].
Proof.
  apply (process_car_page_without_id plain_extractor last_page_browser
           (u "https://auto.ria.com/uk/news/1.html")
           (mk_crawl empty_session [] [])).
  reflexivity.
Defined.

(** X4 -- A record on whose page a location was found carries the key
    [location], which is no column of [cars]: [save_car_data] and
    [process_car_page] catch the [TypeError] of the constructor and store
    nothing for it. *)
Theorem located_record_not_stored (X : extractor) (B : browser) :
  (forall d s, cd_location d <> None -> rows (save_car_data d s) = rows s)
  /\ (forall car_url c,
        opt_truthy (page_location X (fetch_with_playwright B (visited c) car_url))
        = true ->
        db (process_car_page X B car_url c) = db c).
Proof.
  split.
  - intros d s Hloc. unfold save_car_data, new_Car.
    destruct (select_car (cd_url d) s); [reflexivity|].
    destruct (cd_location d); [reflexivity|contradiction].
  - intros car_url c Hloc. unfold process_car_page.
    destruct (search re_car_id car_url); [|reflexivity].
    destruct (select_car car_url (db c)); [reflexivity|].
    destruct (negb (truthy _)); [reflexivity|].
    unfold new_Car, set_phone_number, parse_car_detail_page. cbn [cd_location].
    rewrite Hloc.
    destruct (page_location X (fetch_with_playwright B (visited c) car_url));
      [reflexivity|discriminate Hloc].
Qed.

Lemma located_record_not_stored_witness :
  db (process_car_page located_extractor last_page_browser known_car_url fresh_crawl)
  = db fresh_crawl.
Proof.
  apply (proj2 (located_record_not_stored located_extractor last_page_browser)
           known_car_url fresh_crawl).
  reflexivity.
Defined.

(** ** The crawl keeps the table consistent *)

Lemma saved_count_snoc (os : list (pystr * outcome)) (x : pystr) (o : outcome) :
  saved_count (os ++ [(x, o)])
  = (saved_count os + match o with Saved => 1 | _ => 0 end)%nat.
Proof.
  unfold saved_count. rewrite List.filter_app, length_app. destruct o; reflexivity.
Qed.

Lemma continues_refl (c : crawl) : consistent (db c) -> continues c c.
Proof.
  intros H. split; [exact H|]. split; [exists []; now rewrite app_nil_r|reflexivity].
Qed.

Lemma continues_trans (a b c : crawl) :
  continues a b -> continues b c -> continues a c.
Proof.
  intros [_ [[x Hx] Hn]] [Hc [[y Hy] Hm]]. split; [exact Hc|]. split.
  - exists (x ++ y). now rewrite Hy, Hx, app_assoc.
  - lia.
Qed.

Lemma process_car_page_continues (X : extractor) (B : browser) (car_url : pystr)
    (c : crawl) :
  consistent (db c) -> continues c (process_car_page X B car_url c).
Proof.
  intros Hc.
  assert (Same : forall v o,
            continues c (mk_crawl (db c) v (outcomes c ++ [(car_url, o)]))
            \/ o = Saved).
  { intros v o. destruct o; try (now right); left;
      (split; [exact Hc|]; split; [exists []; cbn; now rewrite app_nil_r|];
       cbn [db outcomes]; rewrite saved_count_snoc; lia). }
  unfold process_car_page.
  destruct (search re_car_id car_url) as [m|].
  2:{ destruct (Same (visited c) NoCarId) as [H|H]; [exact H|discriminate H]. }
  destruct (select_car car_url (db c)) as [e|] eqn:E.
  { destruct (Same (visited c) AlreadyExists) as [H|H]; [exact H|discriminate H]. }
  destruct (negb (truthy _)).
  { destruct (Same (visited c ++ [car_url]) FetchFailed) as [H|H];
      [exact H|discriminate H]. }
  unfold new_Car, set_phone_number, parse_car_detail_page. cbn [cd_location cd_url cd_fields].
  destruct (if opt_truthy (page_location X _) then page_location X _ else None).
  { destruct (Same (visited c ++ [car_url]) Failed) as [H|H];
      [exact H|discriminate H]. }
  cbn [db visited outcomes].
  match goal with
  | |- context [add_commit ?car (db c)] =>
      destruct (add_commit_new car (db c) Hc E) as [Hc' [Hw Hrows]];
      destruct (add_commit car (db c)) as [s w]
  end.
  cbn [fst snd] in *. subst w. split; [exact Hc'|]. split.
  - eexists. cbn [db]. exact Hrows.
  - cbn [db outcomes]. rewrite Hrows, length_app, saved_count_snoc. simpl. lia.
Qed.

Lemma dispatch_items_continues (cfg : settings) (X : extractor) (B : browser)
    (car_links : list pystr) :
  forall c tickets, consistent (db c) ->
    continues c (fst (dispatch_items cfg X B car_links c tickets)).
Proof.
  induction car_links as [|l rest IH]; intros c tickets Hc; cbn [dispatch_items].
  - now apply continues_refl.
  - destruct (tickets >=? MAX_TICKETS_PER_RUN cfg)%Z; [now apply continues_refl|].
    pose proof (process_car_page_continues X B l c Hc) as H1.
    apply (continues_trans _ _ _ H1). apply IH. apply H1.
Qed.

Lemma crawl_pages_continues (cfg : settings) (L : lib) (X : extractor) (B : browser)
    (fuel : nat) :
  forall r, consistent (db (state r)) ->
    continues (state r) (state (fst (crawl_pages fuel cfg L X B r))).
Proof.
  induction fuel as [|fuel IH]; intros r Hc; cbn [crawl_pages];
    destruct (negb _); cbn [fst state]; try (now apply continues_refl).
  assert (Hv : continues (state r)
                 (mk_crawl (db (state r)) (visited (state r) ++ [current_url r])
                    (outcomes (state r)))).
  { split; [exact Hc|]. split; [exists []; cbn; now rewrite app_nil_r|reflexivity]. }
  destruct (negb (truthy _)); [exact Hv|].
  destruct (parse_car_listing_page_enhanced L _) as [|l links]; [exact Hv|].
  pose proof (dispatch_items_continues cfg X B (l :: links)
                (mk_crawl (db (state r)) (visited (state r) ++ [current_url r])
                   (outcomes (state r))) (processed_tickets r) Hc) as Hd.
  destruct (dispatch_items _ _ _ _ _ _) as [c tickets]. cbn [fst] in Hd.
  pose proof (continues_trans _ _ _ Hv Hd) as Hvd.
  destruct (browser_next_page_url B (visited c) (current_url r)) as [next|];
    [|exact Hvd].
  destruct (truthy next); [|exact Hvd].
  apply (continues_trans _ _ _ Hvd).
  apply (IH (mk_run c (listing_fetches r ++ [current_url r]) tickets
               (processed_pages r + 1)%Z next)).
  apply Hd.
Qed.



(** ** The limits of a crawl *)

Lemma dispatch_items_bounds (cfg : settings) (X : extractor) (B : browser)
    (car_links : list pystr) :
  forall c tickets,
    let r := dispatch_items cfg X B car_links c tickets in
    (tickets <= snd r)%Z
    /\ (snd r <= Z.max tickets (MAX_TICKETS_PER_RUN cfg))%Z
    /\ length (outcomes (fst r))
       = (length (outcomes c) + Z.to_nat (snd r - tickets))%nat.
Proof.
  induction car_links as [|l rest IH]; intros c tickets; cbn [dispatch_items].
  - cbn [fst snd]. repeat split; lia.
  - destruct (tickets >=? MAX_TICKETS_PER_RUN cfg)%Z eqn:E.
    + cbn [fst snd]. repeat split; lia.
    + rewrite Z.geb_leb in E. apply Z.leb_gt in E.
      destruct (IH (process_car_page X B l c) (tickets + 1)%Z) as [H1 [H2 H3]].
      destruct (process_car_page_logs X B l c) as [o Ho].
      cbv zeta. rewrite Ho, length_app in H3. simpl in H3.
      repeat split; lia.
Qed.

Lemma crawl_pages_bounds (cfg : settings) (L : lib) (X : extractor) (B : browser)
    (fuel : nat) :
  forall r,
    let r' := fst (crawl_pages fuel cfg L X B r) in
    (processed_tickets r <= processed_tickets r'
     <= Z.max (processed_tickets r) (MAX_TICKETS_PER_RUN cfg))%Z
    /\ (processed_pages r <= processed_pages r'
        <= Z.max (processed_pages r) (MAX_PAGES cfg))%Z
    /\ (length (listing_fetches r')
        <= length (listing_fetches r)
           + Z.to_nat (MAX_PAGES cfg - processed_pages r))%nat
    /\ length (outcomes (state r'))
       = (length (outcomes (state r))
          + Z.to_nat (processed_tickets r' - processed_tickets r))%nat.
Proof.
  induction fuel as [|fuel IH]; intros r; cbn [crawl_pages];
    destruct ((processed_pages r <? MAX_PAGES cfg)%Z) eqn:Ep;
    cbn [andb negb];
    try (cbv zeta; cbn [fst processed_tickets processed_pages listing_fetches state];
         repeat split; lia).
  - destruct ((processed_tickets r <? MAX_TICKETS_PER_RUN cfg)%Z); cbn [negb];
      cbv zeta; cbn [fst processed_tickets processed_pages listing_fetches state];
      repeat split; lia.
  - apply Z.ltb_lt in Ep.
    assert (Stop : forall c, outcomes c = outcomes (state r) ->
              let r' := mk_run c (listing_fetches r ++ [current_url r])
                          (processed_tickets r) (processed_pages r) (current_url r) in
              (processed_tickets r <= processed_tickets r'
               <= Z.max (processed_tickets r) (MAX_TICKETS_PER_RUN cfg))%Z
              /\ (processed_pages r <= processed_pages r'
                  <= Z.max (processed_pages r) (MAX_PAGES cfg))%Z
              /\ (length (listing_fetches r')
                  <= length (listing_fetches r)
                     + Z.to_nat (MAX_PAGES cfg - processed_pages r))%nat
              /\ length (outcomes (state r'))
                 = (length (outcomes (state r))
                    + Z.to_nat (processed_tickets r' - processed_tickets r))%nat).
    { intros c Hc. cbv zeta.
      cbn [processed_tickets processed_pages listing_fetches state].
      rewrite length_app, Hc. simpl. repeat split; lia. }
    destruct ((processed_tickets r <? MAX_TICKETS_PER_RUN cfg)%Z); cbn [negb];
      [|cbv zeta; cbn [fst processed_tickets processed_pages listing_fetches state];
        repeat split; lia].
    destruct (negb (truthy _)); [apply Stop; reflexivity|].
    destruct (parse_car_listing_page_enhanced L _) as [|l links];
      [apply Stop; reflexivity|].
    pose proof (dispatch_items_bounds cfg X B (l :: links)
                  (mk_crawl (db (state r)) (visited (state r) ++ [current_url r])
                     (outcomes (state r))) (processed_tickets r)) as Hd.
    destruct (dispatch_items _ _ _ _ _ _) as [c tickets].
    cbv zeta in Hd. cbn [fst snd outcomes] in Hd. destruct Hd as [D1 [D2 D3]].
    assert (Adv : forall u,
              let r' := mk_run c (listing_fetches r ++ [current_url r])
                          tickets (processed_pages r + 1)%Z u in
              (processed_tickets r <= processed_tickets r'
               <= Z.max (processed_tickets r) (MAX_TICKETS_PER_RUN cfg))%Z
              /\ (processed_pages r <= processed_pages r'
                  <= Z.max (processed_pages r) (MAX_PAGES cfg))%Z
              /\ (length (listing_fetches r')
                  <= length (listing_fetches r)
                     + Z.to_nat (MAX_PAGES cfg - processed_pages r))%nat
              /\ length (outcomes (state r'))
                 = (length (outcomes (state r))
                    + Z.to_nat (processed_tickets r' - processed_tickets r))%nat).
    { intros u. cbv zeta.
      cbn [processed_tickets processed_pages listing_fetches state].
      rewrite length_app. simpl. repeat split; lia. }
    destruct (browser_next_page_url B (visited c) (current_url r)) as [next|];
      [|apply Adv].
    destruct (truthy next); [|apply Adv].
    specialize (IH (mk_run c (listing_fetches r ++ [current_url r]) tickets
                      (processed_pages r + 1)%Z next)).
    cbv zeta in IH |- *.
    cbn [processed_tickets processed_pages listing_fetches state] in IH.
    rewrite length_app in IH. simpl in IH.
    destruct IH as [[I1 I2] [[I3 I4] [I5 I6]]].
    repeat split; lia.
Qed.

(** X6 -- A crawl respects its limits: it fetches at most [MAX_PAGES]
    listing pages, the page counter ends at most at [MAX_PAGES] and the
    item counter at most at [MAX_TICKETS_PER_RUN]; the item counter is
    the number of detail URLs processed; and the loop ends by one of its
    own conditions. *)
Theorem crawl_respects_limits (cfg : settings) (L : lib) (X : extractor)
    (B : browser) (s : session) :
  let r := fst (run_enhanced_playwright_scraper cfg L X B s) in
  (0 <= processed_pages r <= Z.max 0 (MAX_PAGES cfg))%Z
  /\ (0 <= processed_tickets r <= Z.max 0 (MAX_TICKETS_PER_RUN cfg))%Z
  /\ (length (listing_fetches r) <= Z.to_nat (MAX_PAGES cfg))%nat
  /\ length (outcomes (state r)) = Z.to_nat (processed_tickets r)
  /\ snd (run_enhanced_playwright_scraper cfg L X B s) <> OutOfFuel.
Proof.
  intros r.
  pose proof (crawl_pages_bounds cfg L X B (Z.to_nat (MAX_PAGES cfg))
                (mk_run (mk_crawl s [] []) [] 0%Z 0%Z (AUTO_RIA_START_URL cfg)))
    as H.
  cbv zeta in H.
  change (fst (crawl_pages (Z.to_nat (MAX_PAGES cfg)) cfg L X B
                 (mk_run (mk_crawl s [] []) [] 0%Z 0%Z (AUTO_RIA_START_URL cfg))))
    with r in H.
  cbn [processed_tickets processed_pages listing_fetches state outcomes length] in H.
  destruct H as [[T1 T2] [[P1 P2] [F O]]].
  split; [lia|]. split; [lia|]. split; [lia|]. split; [|].
  - rewrite O. f_equal. lia.
  - apply run_enhanced_playwright_scraper_ends.
Qed.

(** ** The crawl over HTTP *)

Lemma http_items_db (H : http_client) (car_urls : list pystr) :
  forall c,
    db (fold_left (fun c car_url => http_process_car_page H car_url c) car_urls c)
    = db c
    /\ saved_count
         (outcomes (fold_left (fun c car_url => http_process_car_page H car_url c)
                      car_urls c))
       = saved_count (outcomes c).
Proof.
  induction car_urls as [|x rest IH]; intros c; cbn [fold_left]; [now split|].
  destruct (IH (http_process_car_page H x c)) as [I1 I2]. rewrite I1, I2.
  unfold http_process_car_page. cbn [db outcomes]. rewrite saved_count_snoc.
  split; [reflexivity|lia].
Qed.

Lemma process_listing_page_db (cfg : settings) (L : lib) (H : http_client)
    (page_url : pystr) (c : crawl) :
  db (fst (process_listing_page cfg L H page_url c)) = db c
  /\ saved_count (outcomes (fst (process_listing_page cfg L H page_url c)))
     = saved_count (outcomes c).
Proof.
  unfold process_listing_page.
  destruct (fetch_page H (visited c) page_url) as [html|]; [|now split].
  destruct (parse_car_listing_page L html) as [|x xs]; [now split|].
  cbn [fst].
  apply (http_items_db H (if TEST_MODE cfg then firstn 3 (x :: xs) else x :: xs)
           (mk_crawl (db c) (visited c ++ [page_url]) (outcomes c))).
Qed.

Lemma http_crawl_pages_bounds (cfg : settings) (L : lib) (H : http_client)
    (max_pages : Z) (fuel : nat) :
  forall r,
    let r' := fst (http_crawl_pages fuel cfg L H max_pages r) in
    (length (http_listing_fetches r')
     <= length (http_listing_fetches r) + Z.to_nat (max_pages - page_count r))%nat
    /\ db (http_state r') = db (http_state r)
    /\ saved_count (outcomes (http_state r')) = saved_count (outcomes (http_state r)).
Proof.
  induction fuel as [|fuel IH]; intros r; cbn [http_crawl_pages];
    destruct (truthy (current_page_url r)); cbn [andb negb];
    try (cbv zeta; cbn [fst http_listing_fetches http_state]; repeat split; lia);
    destruct ((page_count r <? max_pages)%Z) eqn:Ep; cbn [negb];
    try (cbv zeta; cbn [fst http_listing_fetches http_state]; repeat split; lia).
  apply Z.ltb_lt in Ep.
  pose proof (process_listing_page_db cfg L H (current_page_url r) (http_state r))
    as [Hdb Hsaved].
  destruct (process_listing_page _ _ _ _ _) as [c next]. cbn [fst] in Hdb, Hsaved.
  assert (Stop : let r' := mk_http_run c (http_listing_fetches r ++ [current_page_url r])
                             (page_count r) (current_page_url r) in
            (length (http_listing_fetches r')
             <= length (http_listing_fetches r)
                + Z.to_nat (max_pages - page_count r))%nat
            /\ db (http_state r') = db (http_state r)
            /\ saved_count (outcomes (http_state r'))
               = saved_count (outcomes (http_state r))).
  { cbv zeta. cbn [http_listing_fetches http_state]. rewrite length_app. simpl.
    repeat split; [lia|exact Hdb|exact Hsaved]. }
  destruct next as [next|]; [|exact Stop].
  destruct (negb (truthy next)); [exact Stop|].
  destruct (str_eqb next (current_page_url r)); [exact Stop|].
  specialize (IH (mk_http_run c (http_listing_fetches r ++ [current_page_url r])
                    (page_count r + 1)%Z next)).
  cbv zeta in IH |- *. cbn [http_listing_fetches http_state page_count] in IH.
  rewrite length_app in IH. simpl in IH. destruct IH as [I1 [I2 I3]].
  repeat split; [lia|congruence|congruence].
Qed.

(** X7 -- [run_scraper] fetches at most [MAX_PAGES] listing pages (one in
    test mode), never the same page twice in a row, and ends by one of
    its own conditions. *)
Theorem run_scraper_page_limit (cfg : settings) (L : lib) (H : http_client)
    (s : session) :
  let r := fst (run_scraper cfg L H s) in
  (length (http_listing_fetches r)
   <= Z.to_nat (if TEST_MODE cfg then 1 else MAX_PAGES cfg))%nat
  /\ no_refetch (http_listing_fetches r)
  /\ snd (run_scraper cfg L H s) <> OutOfFuel.
Proof.
  intros r. split; [|split].
  - pose proof (http_crawl_pages_bounds cfg L H
                  (if TEST_MODE cfg then 1%Z else MAX_PAGES cfg)
                  (Z.to_nat (if TEST_MODE cfg then 1%Z else MAX_PAGES cfg))
                  (mk_http_run (mk_crawl s [] []) [] 0%Z (AUTO_RIA_START_URL cfg)))
      as [B _].
    cbn [http_listing_fetches page_count length] in B.
    rewrite Z.sub_0_r in B. exact B.
  - apply run_scraper_no_refetch.
  - apply http_crawl_pages_fuel. cbn [page_count]. lia.
Qed.

(** X8 -- [run_scraper] writes no row: [process_car_page] awaits the
    dictionary that the ordinary function [parse_car_detail_page]
    returns, the [TypeError] is caught, and [save_car_data] is not
    reached.  The session after the run is the session before it. *)
Theorem run_scraper_stores_nothing (cfg : settings) (L : lib) (H : http_client)
    (s : session) :
  db (http_state (fst (run_scraper cfg L H s))) = s
  /\ saved_count (outcomes (http_state (fst (run_scraper cfg L H s)))) = 0%nat.
Proof.
  pose proof (http_crawl_pages_bounds cfg L H
                (if TEST_MODE cfg then 1%Z else MAX_PAGES cfg)
                (Z.to_nat (if TEST_MODE cfg then 1%Z else MAX_PAGES cfg))
                (mk_http_run (mk_crawl s [] []) [] 0%Z (AUTO_RIA_START_URL cfg)))
    as [_ [D S]].
  split; [exact D|exact S].
Qed.

(** ** Next page: the first usable selector wins *)

Lemma first_next_link_skip (L : lib) (doc : soup) (cur : pystr)
    (pre rest : list selector) :
  (forall s, In s pre -> usable_link doc s = None) ->
  first_next_link L doc cur (pre ++ rest) = first_next_link L doc cur rest.
Proof.
  induction pre as [|s pre IH]; intros Hpre; [reflexivity|].
  cbn [app first_next_link].
  pose proof (Hpre s (or_introl eq_refl)) as Hs. unfold usable_link in Hs.
  assert (IH' : first_next_link L doc cur (pre ++ rest)
                = first_next_link L doc cur rest)
    by (apply IH; intros s' Hs'; apply Hpre; now right).
  destruct (soup_select_one s doc) as [e|]; [|exact IH'].
  destruct (get (el_head e) (u "href")) as [h|]; [|exact IH'].
  destruct (truthy h); [discriminate Hs|exact IH'].
Qed.

(** X9 -- [get_next_page_url] takes the link of the first selector of its
    list that yields a non-empty [href], whatever the later selectors
    match; a link that starts with [http] is returned as it is, any other
    is resolved against the current page; with no usable selector the
    result is [None]. *)
Theorem get_next_page_url_first_wins (L : lib) (html current_url : pystr) :
  (forall pre sel post h,
      next_page_selectors = pre ++ sel :: post ->
      (forall s, In s pre -> usable_link (BeautifulSoup L html) s = None) ->
      usable_link (BeautifulSoup L html) sel = Some h ->
      get_next_page_url L html current_url
      = Some (if startswith (u "http") h then h else urljoin L current_url h))
  /\ ((forall s, In s next_page_selectors ->
         usable_link (BeautifulSoup L html) s = None) ->
      get_next_page_url L html current_url = None).
Proof.
  split.
  - intros pre sel post h Hsplit Hpre Hsel. unfold get_next_page_url.
    rewrite Hsplit, (first_next_link_skip L _ current_url pre (sel :: post) Hpre).
    cbn [first_next_link]. unfold usable_link in Hsel.
    destruct (soup_select_one sel (BeautifulSoup L html)) as [e|]; [|discriminate].
    destruct (get (el_head e) (u "href")) as [h'|]; [|discriminate].
    destruct (truthy h') eqn:T; [|discriminate].
    injection Hsel as ->. reflexivity.
  - intros Hall. unfold get_next_page_url.
    rewrite <- (app_nil_r next_page_selectors).
    now rewrite (first_next_link_skip L _ current_url next_page_selectors [] Hall).
Qed.

Lemma get_next_page_url_first_wins_witness :
  get_next_page_url last_page_lib listing_text (u "https://auto.ria.com/uk/")
  = Some (if startswith (u "http") last_page_url then last_page_url
          else urljoin last_page_lib (u "https://auto.ria.com/uk/") last_page_url).
Proof.
  apply (proj1 (get_next_page_url_first_wins last_page_lib listing_text
                  (u "https://auto.ria.com/uk/"))
           (firstn 5 next_page_selectors) (nth 5 next_page_selectors [])
           [] last_page_url).
  - reflexivity.
  - intros s Hs. simpl in Hs.
    destruct Hs as [<-|[<-|[<-|[<-|[<-|[]]]]]]; reflexivity.
  - reflexivity.
Defined.

(** ** Odometer: what the pattern paths can give *)

Lemma thousands_in_multiple (t : pystr) (n : N) :
  thousands_in t = Some (Returned n) -> n mod 1000 = 0.
Proof.
  unfold thousands_in. destruct (search re_thousand_km t); [|discriminate].
  destruct (int_of _) as [k|]; [|discriminate].
  intros [= <-]. apply N.Div0.mod_mul.
Qed.

(** X10 -- Without a detail-layout value element every odometer value
    comes from the thousands pattern and is a multiple of 1000; so is
    every odometer value read from listing-style content by
    [parse_car_detail_page]. *)
Theorem odometer_from_pattern_is_thousands (doc : soup) (n : N) :
  (soup_select_one detail_odometer_selector doc = None ->
   extract_odometer doc = Some n -> n mod 1000 = 0)
  /\ (is_listing_page doc = true ->
      detail_page_odometer doc = Some n -> n mod 1000 = 0).
Proof.
  split.
  - intros Hd. unfold extract_odometer, extract_odometer_body. rewrite Hd.
    destruct (listing_odometer doc) as [[k|]|] eqn:El.
    + intros [= <-]. unfold listing_odometer in El.
      destruct (soup_select_one listing_odometer_selector doc); [|discriminate].
      now apply thousands_in_multiple in El.
    + discriminate.
    + destruct (List.find _ (soup_strings doc)) as [t|]; [|discriminate].
      destruct (thousands_in t) as [[k|]|] eqn:Et; try discriminate.
      intros [= <-]. now apply thousands_in_multiple in Et.
  - intros Hl. unfold detail_page_odometer. rewrite Hl.
    destruct (soup_select_one _ doc) as [e|]; [|discriminate].
    destruct (thousands_in (strip (text e))) as [[k|]|] eqn:Et; try discriminate.
    intros [= <-]. now apply thousands_in_multiple in Et.
Qed.

Lemma odometer_from_pattern_is_thousands_witness :
  extract_odometer (listing_mileage (u "120 тис. км")) = Some 120000
  /\ 120000 mod 1000 = 0.
Proof.
  split; [reflexivity|].
  apply (proj1 (odometer_from_pattern_is_thousands
                  (listing_mileage (u "120 тис. км")) 120000));
    reflexivity.
Defined.

(** X11 -- When the detail-layout value element holds no digit, the
    conversion of the empty digit string raises; the extractor returns
    nothing and the free-text scan is not reached, even on a page with a
    text that the scan would match. *)
Theorem extract_odometer_without_digits (doc : soup) (e : element) :
  listing_odometer doc = None ->
  soup_select_one detail_odometer_selector doc = Some e ->
  digits_only (strip (text e)) = [] ->
  extract_odometer doc = None.
Proof.
  intros Hl Hd Hdigits. unfold extract_odometer, extract_odometer_body.
  rewrite Hl, Hd. cbv zeta. rewrite Hdigits. reflexivity.
Qed.

Lemma extract_odometer_without_digits_witness :
  List.find (fun s => match search re_thousand_km s with
                      | Some _ => true | None => false end)
    (soup_strings dash_mileage_page) = Some (u "пробіг 120 тис. км")
  /\ extract_odometer dash_mileage_page = None.
Proof.
  split; [reflexivity|].
  apply (extract_odometer_without_digits dash_mileage_page
           (mk_element
              [(mk_head (u "div") [u "base-information"; u "bold"] [],
                [elem "span" [u "size18"] [] [Text (u "—")]; Text []])]
              (mk_head (u "span") [u "size18"] []) [Text (u "—")]));
    reflexivity.
Defined.

(** ** Trimmed text *)

Lemma lstrip_head (s : pystr) :
  match lstrip s with c :: _ => is_space c = false | [] => True end.
Proof.
  induction s as [|c s IH]; [exact I|]. simpl.
  destruct (is_space c) eqn:E; [exact IH|exact E].
Qed.

Lemma lstrip_fixed (s : pystr) :
  match s with c :: _ => is_space c = false | [] => True end -> lstrip s = s.
Proof. destruct s as [|c s]; [reflexivity|]. simpl. now intros ->. Qed.

Lemma lstrip_lstrip (s : pystr) : lstrip (lstrip s) = lstrip s.
Proof. apply lstrip_fixed, lstrip_head. Qed.

Lemma rstrip_prefix (s : pystr) : exists b, s = rstrip s ++ b.
Proof.
  destruct (lstrip_suffix (rev s)) as [a Ha]. exists (rev a). unfold rstrip.
  rewrite <- rev_app_distr, <- Ha. symmetry. apply rev_involutive.
Qed.

(** [strip] is idempotent: a trimmed text has no blank left at either
    end to trim. *)
Theorem strip_idempotent (s : pystr) : strip (strip s) = strip s.
Proof.
  unfold strip.
  assert (H : lstrip (rstrip (lstrip s)) = rstrip (lstrip s)).
  { apply lstrip_fixed. destruct (rstrip_prefix (lstrip s)) as [b Hb].
    pose proof (lstrip_head s) as Hh.
    destruct (rstrip (lstrip s)) as [|c r]; [exact I|].
    rewrite Hb in Hh. exact Hh. }
  rewrite H. unfold rstrip. rewrite rev_involutive, lstrip_lstrip. reflexivity.
Qed.

(** ** VIN: the shape of the result *)

Lemma times_window_rest (p : N -> bool) (n : nat) :
  forall s g rest,
    rmatch (Times n p) s [] (fun s' g' => Some (g', s')) = Some (g, rest) ->
    exists w, s = w ++ rest /\ length w = n /\ forallb p w = true /\ g = [].
Proof.
  induction n as [|n IH]; intros s g rest H.
  - simpl in H. injection H as <- <-. exists []. repeat split.
  - destruct s as [|c s]; [discriminate H|]. simpl in H.
    destruct (p c) eqn:Hc; [|discriminate H].
    destruct (IH s g rest H) as [w [-> [Hlen [Hw Hg]]]].
    exists (c :: w). simpl. rewrite Hc, Hw, Hlen. repeat split. exact Hg.
Qed.

Lemma search_vin_match (s : pystr) (m : list pystr) :
  search re_vin s = Some m ->
  length (nth 0 m []) = 17%nat /\ forallb vin_char (nth 0 m []) = true.
Proof.
  induction s as [|c s IH].
  - discriminate.
  - change (search re_vin (c :: s))
      with (match match_here re_vin (c :: s) with
            | Some (g, rest) =>
                Some (firstn (length (c :: s) - length rest) (c :: s) :: g)
            | None => search re_vin s
            end).
    destruct (match_here re_vin (c :: s)) as [[g rest]|] eqn:M; [|exact IH].
    unfold match_here, re_vin in M.
    apply times_window_rest in M as [w [E [Hlen [Hw _]]]].
    intros [= <-]. cbn [nth]. clear IH.
    change (S (length s)) with (length (c :: s)). rewrite E, length_app.
    replace (length w + length rest - length rest)%nat with (length w) by lia.
    rewrite take_app_length. now split.
Qed.



(** ** Listing pages: the returned list *)

Lemma append_new_NoDup (l : list pystr) (y : pystr) :
  NoDup l -> NoDup (append_new l y).
Proof.
  intros Hl. unfold append_new. destruct (existsb (str_eqb y) l) eqn:E; [exact Hl|].
  apply NoDup_app. split; [exact Hl|]. split; [|apply NoDup_singleton].
  intros x Hx Hy. apply list_elem_of_In in Hx, Hy. destruct Hy as [<-|[]].
  apply existsb_str_eqb in Hx. congruence.
Qed.

Lemma add_car_url_NoDup (L : lib) (l : list pystr) (o : option pystr) :
  NoDup l -> NoDup (add_car_url L l o).
Proof.
  intros Hl. unfold add_car_url. destruct o as [raw|]; [|exact Hl].
  destruct (truthy raw); [now apply append_new_NoDup|exact Hl].
Qed.

Lemma scan_selectors_NoDup (L : lib) (sels : list selector) (doc : soup) :
  NoDup (scan_selectors L sels doc).
Proof.
  unfold scan_selectors.
  assert (Inner : forall es l, NoDup l ->
            NoDup (fold_left (fun car_links element =>
                                add_car_url L car_links (find_car_url element))
                     es l)).
  { induction es as [|e es IH]; intros l Hl; [exact Hl|].
    cbn [fold_left]. apply IH. now apply add_car_url_NoDup. }
  assert (Outer : forall l, NoDup l ->
            NoDup (fold_left
                     (fun car_links selector =>
                        fold_left (fun car_links element =>
                                     add_car_url L car_links (find_car_url element))
                          (soup_select selector doc) car_links) sels l)).
  { induction sels as [|sel sels IH]; intros l Hl; [exact Hl|].
    cbn [fold_left]. apply IH. now apply Inner. }
  apply Outer. constructor.
Qed.

Lemma scan_pattern_NoDup (L : lib) (html : pystr) (l : list pystr) :
  NoDup l -> NoDup (scan_pattern L html l).
Proof.
  intros Hl. unfold scan_pattern. destruct l as [|x l]; [|exact Hl].
  generalize (findall re_auto_link html) as links.
  assert (G : forall links acc, NoDup acc ->
            NoDup (fold_left (fun car_links link =>
                                append_new car_links (absolute_url L link))
                     links acc)).
  { induction links as [|k links IH]; intros acc Ha; [exact Ha|].
    cbn [fold_left]. apply IH. now apply append_new_NoDup. }
  intros links. now apply G.
Qed.

(** X13 -- Both listing parsers return every link they collected exactly
    once: the result is a rearrangement of the list built by the selector
    loop and the pattern scan, which never holds a link twice. *)
Theorem listing_links_once (L : lib) (html : pystr) :
  NoDup (parse_car_listing_page L html)
  /\ Permutation (parse_car_listing_page L html)
       (scan_pattern L html
          (scan_selectors L selectors_to_try (BeautifulSoup L html)))
  /\ NoDup (parse_car_listing_page_enhanced L html)
  /\ (truthy html = true -> anti_bot_marker html = false ->
      Permutation (parse_car_listing_page_enhanced L html)
        (scan_pattern L html
           (scan_selectors L selectors_to_try_enhanced (BeautifulSoup L html)))).
Proof.
  assert (P : forall sels,
            Permutation
              (list_of_set (scan_pattern L html
                              (scan_selectors L sels (BeautifulSoup L html))))
              (scan_pattern L html (scan_selectors L sels (BeautifulSoup L html)))).
  { intros sels. apply NoDup_Permutation.
    - apply NoDup_list_of_set.
    - apply scan_pattern_NoDup, scan_selectors_NoDup.
    - intros x. rewrite !list_elem_of_In. apply in_list_of_set. }
  split; [apply NoDup_list_of_set|]. split; [apply P|]. split.
  - unfold parse_car_listing_page_enhanced.
    destruct (negb (truthy html)); [constructor|].
    destruct (anti_bot_marker html); [constructor|]. apply NoDup_list_of_set.
  - intros Ht Hm. unfold parse_car_listing_page_enhanced. rewrite Ht, Hm.
    cbn [negb]. apply P.
Qed.

Lemma listing_links_once_witness :
  Permutation (parse_car_listing_page_enhanced (page_lib mixed_page) listing_text)
    (scan_pattern (page_lib mixed_page) listing_text
       (scan_selectors (page_lib mixed_page) selectors_to_try_enhanced
          (BeautifulSoup (page_lib mixed_page) listing_text))).
Proof.
  apply (proj2 (proj2 (proj2 (listing_links_once (page_lib mixed_page)
                                listing_text))));
    reflexivity.
Defined.

(** ** Mock data: the count of saved records *)

Lemma insert_if_new_rows (d : car_data) (s : session) :
  consistent s ->
  let r := insert_if_new d s in
  consistent (fst r)
  /\ rows (fst r)
     = rows s ++ (if snd r then [mk_Car (cd_url d) (cd_fields d)] else [])
  /\ (snd r = true <-> select_car (cd_url d) s = None).
Proof.
  intros Hs. unfold insert_if_new.
  destruct (select_car (cd_url d) s) as [c|] eqn:E; cbv zeta.
  - cbn [fst snd]. split; [exact Hs|]. split; [now rewrite app_nil_r|].
    split; discriminate.
  - destruct (add_commit_new (mk_Car (cd_url d) (cd_fields d)) s Hs E)
      as [Hc [Hw Hrows]].
    rewrite Hw. split; [exact Hc|]. split; [exact Hrows|]. now split.
Qed.

Lemma save_extracted_rows (detail : option car_data) (cars : list car_data) :
  forall s n, consistent s ->
    let r := save_extracted detail cars s n in
    consistent (fst r)
    /\ exists added, rows (fst r) = rows s ++ added
                     /\ snd r = n + N.of_nat (length added).
Proof.
  induction cars as [|d rest IH]; intros s n Hs; cbn [save_extracted].
  - cbv zeta. cbn [fst snd]. split; [exact Hs|]. exists [].
    rewrite app_nil_r. split; [reflexivity|simpl; lia].
  - destruct (match detail with Some x => car_data_eqb d x | None => false end);
      [now apply IH|].
    destruct (negb (truthy (cd_url d))); [now apply IH|].
    destruct (insert_if_new_rows d s Hs) as [Hc [Hrows _]].
    destruct (insert_if_new d s) as [s' w]. cbn [fst snd] in Hc, Hrows.
    destruct (IH s' (if w then n + 1 else n) Hc) as [Hc' [added [Hr Hn]]].
    cbv zeta. split; [exact Hc'|].
    exists ((if w then [mk_Car (cd_url d) (cd_fields d)] else []) ++ added).
    rewrite Hr, Hrows, <- app_assoc. split; [reflexivity|].
    rewrite Hn, length_app. destruct w; simpl length; lia.
Qed.

Lemma mock_detail_car_url (X : extractor) (html : pystr) :
  cd_url (mock_detail_car X html) = detail_url.
Proof. reflexivity. Qed.



(** ** Fetching with retries *)

Lemma judge_good (r : Http.reply) (c : pystr) :
  Http.judge r = Http.Good c -> Http.blocked_marker c = false.
Proof.
  unfold Http.judge. destruct r as [moved final status err text| |]; try discriminate.
  destruct (moved && _ && _); [discriminate|].
  destruct (status =? 403)%Z; [discriminate|].
  destruct err; [discriminate|].
  destruct (Http.blocked_marker text) eqn:M; [discriminate|].
  now intros [= <-].
Qed.

(** The three passes of the loop, case by case. *)
Ltac fetch_cases site :=
  unfold Http.fetch_page, Http.max_retries; cbn [Http.attempts];
  destruct (Http.judge (site 0%nat)) eqn:J0; cbn;
  try destruct (Http.judge (site 1%nat)) eqn:J1; cbn;
  try destruct (Http.judge (site 2%nat)) eqn:J2; cbn.

(** X15 -- [fetch_page] never returns a page with a blocking marker: the
    content it returns is that of the first request, among at most three,
    that was neither an HTTP error nor a marker page, and no request is
    sent after it. *)
Theorem fetch_page_content_clean (site : nat -> Http.reply) (c : pystr) :
  Http.result (Http.fetch_page site) = Http.Content c ->
  Http.blocked_marker c = false
  /\ exists k, (k < 3)%nat
       /\ Http.judge (site k) = Http.Good c
       /\ Http.requests (Http.fetch_page site) = S k
       /\ forall j, (j < k)%nat ->
            Http.judge (site j) = Http.Blocked \/ Http.judge (site j) = Http.Retry.
Proof.
  assert (Pick : forall k, (k < 3)%nat -> Http.judge (site k) = Http.Good c ->
            Http.requests (Http.fetch_page site) = S k ->
            (forall j, (j < k)%nat ->
               Http.judge (site j) = Http.Blocked \/ Http.judge (site j) = Http.Retry) ->
            Http.blocked_marker c = false
            /\ exists k, (k < 3)%nat
                 /\ Http.judge (site k) = Http.Good c
                 /\ Http.requests (Http.fetch_page site) = S k
                 /\ forall j, (j < k)%nat ->
                      Http.judge (site j) = Http.Blocked
                      \/ Http.judge (site j) = Http.Retry).
  { intros k Hk Hg Hr Hb. split; [exact (judge_good _ _ Hg)|]. now exists k. }
  assert (Below1 : forall j, (j < 1)%nat -> j = 0%nat) by lia.
  assert (Below2 : forall j, (j < 2)%nat -> j = 0%nat \/ j = 1%nat) by lia.
  revert Pick. fetch_cases site; intros Pick [= E]; try subst;
    first
      [ apply (Pick 0%nat); [lia|assumption|reflexivity|intros j Hj; lia]
      | apply (Pick 1%nat); [lia|assumption|reflexivity|];
        intros j Hj; rewrite (Below1 j Hj); auto
      | apply (Pick 2%nat); [lia|assumption|reflexivity|];
        intros j Hj; destruct (Below2 j Hj) as [-> | ->]; auto ].
Qed.

Lemma fetch_page_content_clean_witness :
  Http.blocked_marker (u "<html>listing</html>") = false
  /\ exists k, (k < 3)%nat
       /\ Http.judge (recovering_site k) = Http.Good (u "<html>listing</html>")
       /\ Http.requests (Http.fetch_page recovering_site) = S k
       /\ forall j, (j < k)%nat ->
            Http.judge (recovering_site j) = Http.Blocked
            \/ Http.judge (recovering_site j) = Http.Retry.
Proof.
  apply (fetch_page_content_clean recovering_site (u "<html>listing</html>")).
  reflexivity.
Defined.

(** X16 -- [fetch_page] sends between one and three requests and waits
    once between two requests, never after the last: the waits are 2
    seconds, then 4 after an HTTP error or 8 after a marker page, so they
    grow strictly. *)
Theorem fetch_page_backoff (site : nat -> Http.reply) :
  let f := Http.fetch_page site in
  (1 <= Http.requests f <= 3)%nat
  /\ length (Http.sleeps f) = (Http.requests f - 1)%nat
  /\ (Http.sleeps f = [] \/ Http.sleeps f = [2%Z]
      \/ Http.sleeps f = [2%Z; 4%Z] \/ Http.sleeps f = [2%Z; 8%Z])
  /\ Http.increasing (Http.sleeps f).
Proof.
  cbv zeta. fetch_cases site;
    (split; [lia|]; split; [reflexivity|]; split);
    first
      [ left; reflexivity
      | right; left; reflexivity
      | right; right; left; reflexivity
      | right; right; right; reflexivity
      | vm_compute; repeat split ].
Qed.

(** X17 -- After three marker pages [fetch_page] returns [None] without
    raising, and this is the only way it returns [None]: the third
    request got a marker page and the two before it failed.  After three
    HTTP errors it raises. *)
Theorem fetch_page_gives_up (site : nat -> Http.reply) :
  (Http.result (Http.fetch_page site) = Http.Nothing
   <-> Http.judge (site 2%nat) = Http.Blocked
       /\ (Http.judge (site 0%nat) = Http.Blocked
           \/ Http.judge (site 0%nat) = Http.Retry)
       /\ (Http.judge (site 1%nat) = Http.Blocked
           \/ Http.judge (site 1%nat) = Http.Retry))
  /\ ((forall k, (k < 3)%nat -> Http.judge (site k) = Http.Retry) ->
      Http.fetch_page site = Http.mk_fetch Http.Raises 3 [2%Z; 4%Z]).
Proof.
  split.
  - fetch_cases site; split;
      try discriminate; try tauto;
      try (intros [H2 [[H0|H0] [H1|H1]]]; discriminate).
  - intros Hall.
    pose proof (Hall 0%nat ltac:(lia)) as H0.
    pose proof (Hall 1%nat ltac:(lia)) as H1.
    pose proof (Hall 2%nat ltac:(lia)) as H2.
    unfold Http.fetch_page, Http.max_retries. cbn [Http.attempts].
    rewrite H0. cbn. rewrite H1. cbn. rewrite H2. reflexivity.
Qed.

Lemma fetch_page_gives_up_witness :
  Http.result (Http.fetch_page captcha_site) = Http.Nothing
  /\ Http.fetch_page failing_site = Http.mk_fetch Http.Raises 3 [2%Z; 4%Z].
Proof.
  split.
  - apply (proj2 (proj1 (fetch_page_gives_up captcha_site))).
    split; [reflexivity|]. split; left; reflexivity.
  - apply (proj2 (fetch_page_gives_up failing_site)). reflexivity.
Defined.

(** ** Static fields *)

Lemma format_phone_number_result (x : pystr) :
  format_phone_number x = []
  \/ (startswith (u "+38") (format_phone_number x) = true
      /\ forallb digit_or_plus (format_phone_number x) = true).
Proof.
  destruct (strip_non_phone x) as [|c k] eqn:E.
  - left. unfold format_phone_number. rewrite E. reflexivity.
  - right. apply format_phone_number_normal. congruence.
Qed.

(** X18 -- A phone number read from the static content is always in
    normal form: it is the empty string (an attribute or text without any
    digit or plus sign) or it starts with [+38] and holds digits and plus
    signs only.  Without any of the three phone elements the result is
    [None]. *)
Theorem static_phone_number_normal (doc : soup) :
  (forall p, Parser.extract_phone_number doc = Some p ->
     p = [] \/ (startswith (u "+38") p = true /\ forallb digit_or_plus p = true))
  /\ (soup_select_one [[has_attr "data-phone-number" (cls "phone" any_tag)]] doc
      = None ->
      soup_select_one [[has_attr "data-value" any_tag]] doc = None ->
      soup_select_one [[has_attr "data-phone-unmask" (cls "phone" (tag "span"))]]
        doc = None ->
      Parser.extract_phone_number doc = None).
Proof.
  split.
  - intros p. unfold Parser.extract_phone_number. cbv zeta.
    destruct (soup_select_one
                [[has_attr "data-phone-number" (cls "phone" any_tag)]] doc)
      as [e1|].
    + destruct (truthy (Parser.or_empty (get (el_head e1) (u "data-phone-number")))).
      { intros [= <-]. apply format_phone_number_result. }
      destruct (soup_select_one [[has_attr "data-value" any_tag]] doc) as [e2|].
      * destruct (truthy (Parser.or_empty (get (el_head e2) (u "data-value")))).
        { intros [= <-]. apply format_phone_number_result. }
        destruct (soup_select_one _ doc) as [e3|]; [|discriminate].
        destruct (truthy (if truthy _ then _ else _)); [|discriminate].
        intros [= <-]. apply format_phone_number_result.
      * destruct (soup_select_one _ doc) as [e3|]; [|discriminate].
        destruct (truthy (if truthy _ then _ else _)); [|discriminate].
        intros [= <-]. apply format_phone_number_result.
    + destruct (soup_select_one [[has_attr "data-value" any_tag]] doc) as [e2|].
      * destruct (truthy (Parser.or_empty (get (el_head e2) (u "data-value")))).
        { intros [= <-]. apply format_phone_number_result. }
        destruct (soup_select_one _ doc) as [e3|]; [|discriminate].
        destruct (truthy (if truthy _ then _ else _)); [|discriminate].
        intros [= <-]. apply format_phone_number_result.
      * destruct (soup_select_one _ doc) as [e3|]; [|discriminate].
        destruct (truthy (if truthy _ then _ else _)); [|discriminate].
        intros [= <-]. apply format_phone_number_result.
  - intros H1 H2 H3. unfold Parser.extract_phone_number. cbv zeta.
    rewrite H1, H2, H3. reflexivity.
Qed.

Lemma static_phone_number_normal_witness :
  u "+380501234567" = []
  \/ (startswith (u "+38") (u "+380501234567") = true
      /\ forallb digit_or_plus (u "+380501234567") = true).
Proof.
  apply (proj1 (static_phone_number_normal (phone_block (u "(050) 123 45 67")))).
  reflexivity.
Defined.

(** X19 -- [extract_car_number] returns nothing exactly when the page has
    no [.state-num] element; what it returns is trimmed; and for a plate
    text followed by its tooltip the result is the trimmed plate text,
    whatever the tooltip holds. *)
Theorem extract_car_number_trimmed (doc : soup) :
  (Parser.extract_car_number doc = None
   <-> soup_select_one [[cls "state-num" any_tag]] doc = None)
  /\ (forall v, Parser.extract_car_number doc = Some v -> strip v = v)
  /\ (forall e t tip_head tip,
        soup_select_one [[cls "state-num" any_tag]] doc = Some e ->
        el_contents e = [Text t; Tag tip_head tip] ->
        is_popup tip_head = true ->
        Parser.extract_car_number doc = Some (strip t)).
Proof.
  unfold Parser.extract_car_number.
  destruct (soup_select_one [[cls "state-num" any_tag]] doc) as [e|].
  - cbv zeta. split; [split; discriminate|]. split.
    + intros v [= <-]. apply strip_idempotent.
    + intros e' t tip_head tip [= <-] Hc Hp.
      destruct e as [anc h cs]. simpl in Hc. subst cs.
      assert (E : decompose_first is_popup
                    (mk_element anc h [Text t; Tag tip_head tip])
                  = mk_element anc h [Text t]).
      { unfold decompose_first. cbn [remove_first el_head el_contents option_map].
        rewrite Hp. reflexivity. }
      rewrite E. change (text (mk_element anc h [Text t])) with (t ++ []).
      now rewrite app_nil_r.
  - split; [split; reflexivity|]. split; [discriminate|]. discriminate.
Qed.

Lemma extract_car_number_trimmed_witness :
  Parser.extract_car_number
    (plate_label (u " AA 1234 BB ") [Text (u "Перевірений номер")])
  = Some (strip (u " AA 1234 BB ")).
Proof.
  apply (proj2 (proj2 (extract_car_number_trimmed
                         (plate_label (u " AA 1234 BB ")
                            [Text (u "Перевірений номер")])))
           (mk_element [] (mk_head (u "span") [u "state-num"] [])
              [Text (u " AA 1234 BB ");
               elem "span" [u "popup"] [] [Text (u "Перевірений номер")]])
           (u " AA 1234 BB ") (mk_head (u "span") [u "popup"] [])
           [Text (u "Перевірений номер")]);
    reflexivity.
Defined.

(** ** One listing page over HTTP *)

Lemma http_items_outcomes (H : http_client) (car_urls : list pystr) :
  forall c,
    map fst (outcomes (fold_left (fun c car_url => http_process_car_page H car_url c)
                         car_urls c))
    = map fst (outcomes c) ++ car_urls.
Proof.
  induction car_urls as [|x rest IH]; intros c; cbn [fold_left].
  - now rewrite app_nil_r.
  - rewrite IH. unfold http_process_car_page. cbn [outcomes].
    rewrite map_app, <- app_assoc. reflexivity.
Qed.


